(** * Qirvo Echo CLI: the remote command listener

    A shallow embedding of [src/echo-command-handler.ts] (the command
    translator) and [src/remote-command-handler.ts] (session lifecycle,
    poller and local executor), with the properties of the specification
    stated and settled against it.

    Conventions of the embedding.
    - A JavaScript string is the sequence of its UTF-16 code units; the
      embedding covers the code units below 256, one [ascii] each, so a
      Rocq [string] stands for a JS string.
    - [undefined] and [null] are [None]; a value that may be either a
      string or absent is an [option string].
    - An awaited call to the outside (axios, child_process.exec) takes
      its outcome from an environment; the requests sent are recorded in
      a trace. *)

From Stdlib Require Import String Ascii List Bool ZArith NArith Lia.
From Stdlib Require Import DecimalString.
Import ListNotations.
Local Open Scope string_scope.

(** ** JavaScript string primitives *)

Module Js.

(** The code units below 256 that [\s] and [String.prototype.trim]
    treat as white space: TAB, LF, VT, FF, CR, SPACE and NBSP. *)
Definition is_ws (c : ascii) : bool :=
  let n := nat_of_ascii c in
  (((9 <=? n) && (n <=? 13)) || (n =? 32) || (n =? 160))%nat.

(** [c.toLowerCase()] on one code unit below 256: A-Z, and the Latin-1
    capitals U+00C0..U+00DE except the multiplication sign U+00D7. *)
Definition lower_ascii (c : ascii) : ascii :=
  let n := nat_of_ascii c in
  if (((65 <=? n) && (n <=? 90))
      || ((192 <=? n) && (n <=? 222) && negb (n =? 215)))%nat
  then ascii_of_nat (n + 32) else c.

Fixpoint toLowerCase (s : string) : string :=
  match s with
  | EmptyString => EmptyString
  | String c r => String (lower_ascii c) (toLowerCase r)
  end.

(** [s.startsWith(p)] *)
Definition startsWith (s p : string) : bool := String.prefix p s.

(** [s.slice(1)] *)
Definition slice1 (s : string) : string :=
  match s with
  | EmptyString => EmptyString
  | String _ r => r
  end.

Fixpoint trimStart (s : string) : string :=
  match s with
  | EmptyString => EmptyString
  | String c r => if is_ws c then trimStart r else s
  end.

Fixpoint trimEnd (s : string) : string :=
  match s with
  | EmptyString => EmptyString
  | String c r =>
      match trimEnd r with
      | EmptyString => if is_ws c then EmptyString else String c EmptyString
      | r' => String c r'
      end
  end.

(** [s.trim()] *)
Definition trim (s : string) : string := trimEnd (trimStart s).

(** [s.split(/\s+/)]: the pieces between the maximal runs of white
    space.  [piece] is the piece being read and [in_ws] tells that the
    previous code unit was white space.  A leading or trailing run
    leaves an empty piece at that end, and the empty string splits into
    one empty piece. *)
Fixpoint split_from (piece : string) (in_ws : bool) (s : string) : list string :=
  match s with
  | EmptyString => [piece]
  | String c r =>
      if is_ws c then
        if in_ws then split_from EmptyString true r
        else piece :: split_from EmptyString true r
      else split_from (piece ++ String c EmptyString) false r
  end.

Definition split_ws (s : string) : list string :=
  split_from EmptyString false s.

(** Truthiness of a value that is a string, [undefined] or [null]. *)
Definition truthy (v : option string) : bool :=
  match v with
  | Some s => negb (s =? "")
  | None => false
  end.

(** [a || b] where [b] is a string. *)
Definition or_else (a : option string) (b : string) : string :=
  match a with
  | Some s => if s =? "" then b else s
  | None => b
  end.

(** [xs.filter(Boolean)] on an array of strings and [undefined]s. *)
Fixpoint filter_Boolean (xs : list (option string)) : list string :=
  match xs with
  | [] => []
  | Some s :: r => if s =? "" then filter_Boolean r else s :: filter_Boolean r
  | None :: r => filter_Boolean r
  end.

(** [xs.join(sep)] *)
Fixpoint join (sep : string) (xs : list string) : string :=
  match xs with
  | [] => ""
  | [x] => x
  | x :: r => x ++ sep ++ join sep r
  end.

(** [`${n}`] for an integer [n]. *)
Definition show_Z (n : Z) : string := NilZero.string_of_int (Z.to_int n).

End Js.

(** ** The command translator ([echo-command-handler.ts]) *)

Record Parsed := mkParsed { dashboardCommand : string; args : list string }.

(** [subCommand === v], for a [subCommand] that is [undefined] when the
    input has a single token. *)
Definition sub_is (subCommand : option string) (v : string) : bool :=
  match subCommand with
  | Some s => s =? v
  | None => false
  end.

(** The tokens [parts] that [parseCliCommand] works on. *)
Definition parts_of (command : string) : list string :=
  let cleanCommand :=
    if Js.startsWith command ":" then Js.slice1 command else command in
  Js.split_ws (Js.trim cleanCommand).

Definition parseCliCommand (command : string) : Parsed :=
  match parts_of command with
  | [] => mkParsed ":help" []
  | mainCommand :: rest =>
      let subCommand := hd_error rest in
      let args := tl rest in
      let sub_and_args := Js.filter_Boolean (subCommand :: map Some args) in
      let m := Js.toLowerCase mainCommand in
      if m =? "agent" then
        if sub_is subCommand "ask" then mkParsed ":agent" args
        else mkParsed ":agent" sub_and_args
      else if m =? "task" then
        if sub_is subCommand "add" || sub_is subCommand "create"
        then mkParsed ":task add" args
        else if sub_is subCommand "list"
        then mkParsed ":task list" args
        else if sub_is subCommand "complete" || sub_is subCommand "done"
        then mkParsed ":task complete" args
        else if sub_is subCommand "delete" || sub_is subCommand "remove"
        then mkParsed ":task delete" args
        else mkParsed ":task list" []
      else if m =? "git" then
        if sub_is subCommand "status" || negb (Js.truthy subCommand)
        then mkParsed ":git status" args
        else if sub_is subCommand "commit"
        then mkParsed ":git commit" args
        else if sub_is subCommand "branches"
        then mkParsed ":git branches" args
        else if sub_is subCommand "prs" || sub_is subCommand "pr"
        then mkParsed ":git prs" args
        else if sub_is subCommand "config"
        then mkParsed ":git config" args
        else mkParsed ":git status" []
      else if (m =? "help") || (m =? "h") then mkParsed ":help" args
      else if (m =? "clear") || (m =? "cls") then mkParsed ":clear" args
      else if m =? "version" then mkParsed ":version" args
      else if m =? "time" then mkParsed ":time" args
      else if (m =? "plugin") || (m =? "plugins")
      then mkParsed ":plugin" sub_and_args
      else if m =? "memory" then mkParsed ":memory" args
      else if m =? "logs" then mkParsed ":logs" args
      else if Js.startsWith command ":" then
        match Js.split_ws command with
        | cmd :: cmdArgs => mkParsed cmd cmdArgs
        | [] => mkParsed "" []
        end
      else mkParsed (":" ++ mainCommand) sub_and_args
  end.

(** ** SHA-256 ([crypto.createHash('sha256')]) *)

Module Sha256.
Local Open Scope N_scope.

Definition w32 (x : N) : N := N.land x 0xFFFFFFFF.
Definition add32 (x y : N) : N := w32 (x + y).
Definition not32 (x : N) : N := N.lxor (w32 x) 0xFFFFFFFF.
Definition rotr (n x : N) : N :=
  N.lor (N.shiftr x n) (w32 (N.shiftl x (32 - n))).

Definition Ch (x y z : N) : N := N.lxor (N.land x y) (N.land (not32 x) z).
Definition Maj (x y z : N) : N :=
  N.lxor (N.lxor (N.land x y) (N.land x z)) (N.land y z).
Definition Sigma0 (x : N) : N := N.lxor (N.lxor (rotr 2 x) (rotr 13 x)) (rotr 22 x).
Definition Sigma1 (x : N) : N := N.lxor (N.lxor (rotr 6 x) (rotr 11 x)) (rotr 25 x).
Definition sigma0 (x : N) : N := N.lxor (N.lxor (rotr 7 x) (rotr 18 x)) (N.shiftr x 3).
Definition sigma1 (x : N) : N := N.lxor (N.lxor (rotr 17 x) (rotr 19 x)) (N.shiftr x 10).

(** The first 64 primes. *)
Definition is_prime (n : nat) : bool :=
  forallb (fun d => negb (Nat.eqb (Nat.modulo n d) 0)) (seq 2 (n - 2)).

Definition primes : list N :=
  Eval vm_compute in map N.of_nat (filter is_prime (seq 2 310)).

(** The integer cube root below [2 ^ bits], found bit by bit. *)
Fixpoint cbrt_bits (bits : nat) (x r : N) : N :=
  match bits with
  | O => r
  | S b =>
      let r' := r + N.shiftl 1 (N.of_nat b) in
      cbrt_bits b x (if r' * r' * r' <=? x then r' else r)
  end.

(** The round constants: the first 32 bits of the fractional part of
    the cube root of each prime. *)
Definition K : list N :=
  Eval vm_compute in map (fun p => w32 (cbrt_bits 36 (N.shiftl p 96) 0)) primes.

(** The initial hash value: the first 32 bits of the fractional part of
    the square root of each of the first 8 primes. *)
Definition H0 : list N :=
  Eval vm_compute in map (fun p => w32 (N.sqrt (N.shiftl p 64))) (firstn 8 primes).

(** The UTF-8 bytes of a string of code units below 256. *)
Fixpoint utf8 (s : string) : list N :=
  match s with
  | EmptyString => []
  | String c r =>
      let n := N_of_ascii c in
      if n <? 128 then n :: utf8 r
      else N.lor 0xC0 (N.shiftr n 6) :: N.lor 0x80 (N.land n 0x3F) :: utf8 r
  end.

(** Big-endian bytes of [x], [n] of them. *)
Fixpoint be_bytes (n : nat) (x : N) : list N :=
  match n with
  | O => []
  | S n' => N.land (N.shiftr x (8 * N.of_nat n')) 0xFF :: be_bytes n' x
  end.

(** The message followed by the bit 1, zeros up to 56 modulo 64 bytes,
    and the length in bits on 8 bytes. *)
Definition pad (msg : list N) : list N :=
  let len := N.of_nat (length msg) in
  let zeros := N.to_nat ((119 - len mod 64) mod 64) in
  msg ++ 0x80 :: repeat 0 zeros ++ be_bytes 8 (8 * len).

Fixpoint be_words (n : nat) (bytes : list N) : list N :=
  match n, bytes with
  | S n', a :: b :: c :: d :: r =>
      (N.shiftl a 24 + N.shiftl b 16 + N.shiftl c 8 + d) :: be_words n' r
  | _, _ => []
  end.

(** The message schedule, most recent word first: [rev_w] holds
    W(t-1), W(t-2), ... and [n] more words are added. *)
Fixpoint schedule (n : nat) (rev_w : list N) : list N :=
  match n with
  | O => rev_w
  | S n' =>
      let w := add32 (add32 (sigma1 (nth 1 rev_w 0)) (nth 6 rev_w 0))
                     (add32 (sigma0 (nth 14 rev_w 0)) (nth 15 rev_w 0)) in
      schedule n' (w :: rev_w)
  end.

Record Regs := mkRegs { ra : N; rb : N; rc : N; rd : N; re : N; rf : N; rg : N; rh : N }.

Definition round (r : Regs) (kw : N * N) : Regs :=
  let '(k, w) := kw in
  let t1 := add32 (add32 (add32 (rh r) (Sigma1 (re r))) (Ch (re r) (rf r) (rg r)))
                  (add32 k w) in
  let t2 := add32 (Sigma0 (ra r)) (Maj (ra r) (rb r) (rc r)) in
  mkRegs (add32 t1 t2) (ra r) (rb r) (rc r) (add32 (rd r) t1) (re r) (rf r) (rg r).

Definition regs_of (h : list N) : Regs :=
  mkRegs (nth 0 h 0) (nth 1 h 0) (nth 2 h 0) (nth 3 h 0)
         (nth 4 h 0) (nth 5 h 0) (nth 6 h 0) (nth 7 h 0).

Definition compress (h : list N) (block : list N) : list N :=
  let w := rev (schedule 48 (rev (be_words 16 block))) in
  let r0 := regs_of h in
  let r := fold_left round (combine K w) r0 in
  [ add32 (ra r0) (ra r); add32 (rb r0) (rb r); add32 (rc r0) (rc r);
    add32 (rd r0) (rd r); add32 (re r0) (re r); add32 (rf r0) (rf r);
    add32 (rg r0) (rg r); add32 (rh r0) (rh r) ].

Fixpoint blocks (n : nat) (h : list N) (bytes : list N) : list N :=
  match n with
  | O => h
  | S n' => blocks n' (compress h (firstn 64 bytes)) (skipn 64 bytes)
  end.

Definition digest (msg : list N) : list N :=
  let p := pad msg in
  blocks (length p / 64) H0 p.

Definition hex_digit (d : N) : ascii :=
  if d <? 10 then ascii_of_N (48 + d) else ascii_of_N (87 + d).

Fixpoint hex_nibbles (n : nat) (x : N) : string :=
  match n with
  | O => EmptyString
  | S n' => String (hex_digit (N.land (N.shiftr x (4 * N.of_nat n')) 0xF))
                   (hex_nibbles n' x)
  end.

(** [createHash('sha256').update(s).digest('hex')] *)
Definition hex (s : string) : string :=
  String.concat "" (map (hex_nibbles 8) (digest (utf8 s))).

End Sha256.

(** ** Data model ([remote-command-handler.ts]) *)

Inductive CommandType := EchoCli | SystemType.

Module Req.
Record t := mk {
  id : string;
  command : string;
  args : option (list string);
  workingDirectory : option string;
  timeout : option Z;
  type : CommandType;
  userId : string;
  sessionId : string;
  createdAt : string
}.
End Req.

(** The [result] object of the PUT /api/remote-cli body.  [timestamp]
    is the instant that [toISOString] prints. *)
Module Res.
Record t := mk {
  success : bool;
  output : option string;
  error : option string;
  executionTime : Z;
  commandId : string;
  timestamp : Z
}.
End Res.

Module Report.
Record t := mk { commandId : string; result : Res.t }.
End Report.

(** A thrown value.  [new Error(m)] has [isAxiosError = false];
    [response_error] is [error.response?.data?.error]. *)
Record JsError := mkJsError {
  isAxiosError : bool;
  response_error : option string;
  message : string
}.

Definition Error (m : string) : JsError := mkJsError false None m.

(** [response.data] of a backend answer. *)
Module Data.
Record t := mk {
  success : bool;
  error : option string;
  output : option string;
  commands : list Req.t
}.
End Data.

Inductive Outcome :=
| Resolved (data : Data.t)
| Rejected (e : JsError).

(** What a call of [exec] comes to.  Normally the callback receives
    [(error, stdout, stderr)].  [exec] also checks its arguments before
    it starts anything and throws for those it refuses (a negative
    timeout, an empty command): then no callback runs, [exec_error] is
    the message of what was thrown and [exec_sync] is [true].
    [exec_sync] means nothing when [exec_error] is [None]. *)
Record ExecOutcome := mkExecOutcome {
  exec_error : option string;
  stdout : string;
  stderr : string;
  exec_sync : bool
}.

(** An outcome that the callback receives. *)
Definition mkExec (error : option string) (stdout stderr : string) : ExecOutcome :=
  mkExecOutcome error stdout stderr false.

Inductive HttpCall :=
| PostCliSession (sessionId : string) (capabilities : list string)
                 (version platform : string)
| PutCliSession (sessionId : string)
| DeleteCliSession (sessionId : string)
| GetPending (sessionId : string)
| PutRemoteCli (body : Report.t)
| PostEchoCommand (command : string) (args : list string).

Record ExecCall := mkExecCall {
  fullCommand : string;
  opt_timeout : Z;
  opt_maxBuffer : Z;
  opt_cwd : option string
}.

Inductive Event :=
| Http (apiUrl bearer : string) (c : HttpCall)
| Shell (c : ExecCall).

Inductive TimerKind := PollTimer | HeartbeatTimer | StatusTimer.

Record Timer := mkTimer { timer_id : nat; timer_kind : TimerKind; period : Z }.

(** The fields of a [RemoteCommandHandler]. *)
Record Handler := mkHandler {
  apiUrl : string;
  authToken : string;
  sessionId : string;
  isActive : bool;
  pollInterval : option nat;
  heartbeatInterval : option nat;
  capabilities : list string;
  version : string;
  platform : string;
  startTime : Z;
  commandCount : Z;
  lastHeartbeat : option Z;
  lastCommandCheck : option Z
}.

(** The process around the handler: the calls made so far (latest
    last), the clock in milliseconds, and the live interval timers. *)
Record World := mkWorld {
  trace : list Event;
  now : Z;
  timers : list Timer;
  next_timer : nat
}.

Record St := mkSt { this : Handler; world : World }.

(** The outside: the backend's answer to a request, the shell's answer
    to an invocation, and the time a call takes, each given the calls
    made before. *)
Record Env := mkEnv {
  http : list Event -> HttpCall -> Outcome;
  shell : list Event -> ExecCall -> ExecOutcome;
  delay : list Event -> Event -> Z
}.

(** ** State and exceptions

    A computation runs on the state and either returns or throws; the
    state written before a throw stays written, as in JavaScript. *)

Definition M (A : Type) : Type := St -> (A + JsError) * St.

Definition ret {A} (a : A) : M A := fun s => (inl a, s).

Definition bind {A B} (m : M A) (k : A -> M B) : M B :=
  fun s => match m s with
           | (inl a, s') => k a s'
           | (inr e, s') => (inr e, s')
           end.

Definition throw {A} (e : JsError) : M A := fun s => (inr e, s).

Definition try_catch {A} (body : M A) (handler : JsError -> M A) : M A :=
  fun s => match body s with
           | (inl a, s') => (inl a, s')
           | (inr e, s') => handler e s'
           end.

Declare Scope js_scope.
Delimit Scope js_scope with js.
Notation "x <- m ;; k" := (bind m (fun x => k))
  (at level 61, m at next level, right associativity) : js_scope.
Notation "m ;; k" := (bind m (fun _ => k))
  (at level 61, right associativity) : js_scope.
Local Open Scope js_scope.

Definition get_this : M Handler := fun s => (inl (this s), s).

Definition set_this (f : Handler -> Handler) : M unit :=
  fun s => (inl tt, mkSt (f (this s)) (world s)).

Definition Date_now : M Z := fun s => (inl (now (world s)), s).

(** The [console] calls print and do nothing else. *)
Definition console_log : M unit := ret tt.

Definition record (ev : Event) (d : Z) (w : World) : World :=
  mkWorld (trace w ++ [ev]) (now w + d) (timers w) (next_timer w).

(** [setInterval(callback, period)] *)
Definition setInterval (k : TimerKind) (period : Z) : M nat :=
  fun s =>
    let w := world s in
    let i := next_timer w in
    (inl i, mkSt (this s)
                 (mkWorld (trace w) (now w)
                          (timers w ++ [mkTimer i k period]) (S i))).

(** [clearInterval(i)] *)
Definition clearInterval (i : nat) : M unit :=
  fun s =>
    let w := world s in
    (inl tt, mkSt (this s)
                  (mkWorld (trace w) (now w)
                           (filter (fun t => negb (Nat.eqb (timer_id t) i)) (timers w))
                           (next_timer w))).

Section WithEnv.
Variable env : Env.

(** [await axios.<method>(`${apiUrl}/...`, ..., {headers: Bearer token})] *)
Definition axios (apiUrl token : string) (c : HttpCall) : M Data.t :=
  fun s =>
    let w := world s in
    let ev := Http apiUrl token c in
    let s' := mkSt (this s) (record ev (delay env (trace w) ev) w) in
    match http env (trace w) c with
    | Resolved d => (inl d, s')
    | Rejected e => (inr e, s')
    end.

(** [exec(fullCommand, options, callback)], awaited through the
    promise around it: it returns what the callback receives, and
    throws what [exec] itself throws; in the executor of a promise that
    rejects the promise with the error thrown. *)
Definition exec (c : ExecCall) : M ExecOutcome :=
  fun s =>
    let w := world s in
    let ev := Shell c in
    let r := shell env (trace w) c in
    let s' := mkSt (this s) (record ev (delay env (trace w) ev) w) in
    match exec_error r with
    | Some m => if exec_sync r then (inr (Error m), s') else (inl r, s')
    | None => (inl r, s')
    end.

(** *** [echo-command-handler.ts]: handleEchoCommand *)

Definition handleEchoCommand (command authToken apiUrl : string) : M string :=
  try_catch
    (let p := parseCliCommand command in
     data <- axios apiUrl authToken
               (PostEchoCommand (dashboardCommand p) (args p)) ;;
     if Data.success data
     then ret (Js.or_else (Data.output data) "Command executed successfully")
     else throw (Error (Js.or_else (Data.error data) "Command execution failed")))
    (fun error =>
       if isAxiosError error && Js.truthy (response_error error)
       then throw (Error (Js.or_else (response_error error) ""))
       else throw (Error ("API request failed: " ++ message error))).

(** *** [remote-command-handler.ts] *)

Definition set_isActive (b : bool) (h : Handler) : Handler :=
  mkHandler (apiUrl h) (authToken h) (sessionId h) b (pollInterval h)
            (heartbeatInterval h) (capabilities h) (version h) (platform h)
            (startTime h) (commandCount h) (lastHeartbeat h) (lastCommandCheck h).

Definition set_pollInterval (i : option nat) (h : Handler) : Handler :=
  mkHandler (apiUrl h) (authToken h) (sessionId h) (isActive h) i
            (heartbeatInterval h) (capabilities h) (version h) (platform h)
            (startTime h) (commandCount h) (lastHeartbeat h) (lastCommandCheck h).

Definition set_heartbeatInterval (i : option nat) (h : Handler) : Handler :=
  mkHandler (apiUrl h) (authToken h) (sessionId h) (isActive h) (pollInterval h)
            i (capabilities h) (version h) (platform h)
            (startTime h) (commandCount h) (lastHeartbeat h) (lastCommandCheck h).

Definition set_startTime (t : Z) (h : Handler) : Handler :=
  mkHandler (apiUrl h) (authToken h) (sessionId h) (isActive h) (pollInterval h)
            (heartbeatInterval h) (capabilities h) (version h) (platform h)
            t (commandCount h) (lastHeartbeat h) (lastCommandCheck h).

Definition set_commandCount (n : Z) (h : Handler) : Handler :=
  mkHandler (apiUrl h) (authToken h) (sessionId h) (isActive h) (pollInterval h)
            (heartbeatInterval h) (capabilities h) (version h) (platform h)
            (startTime h) n (lastHeartbeat h) (lastCommandCheck h).

Definition set_lastHeartbeat (t : option Z) (h : Handler) : Handler :=
  mkHandler (apiUrl h) (authToken h) (sessionId h) (isActive h) (pollInterval h)
            (heartbeatInterval h) (capabilities h) (version h) (platform h)
            (startTime h) (commandCount h) t (lastCommandCheck h).

Definition set_lastCommandCheck (t : option Z) (h : Handler) : Handler :=
  mkHandler (apiUrl h) (authToken h) (sessionId h) (isActive h) (pollInterval h)
            (heartbeatInterval h) (capabilities h) (version h) (platform h)
            (startTime h) (commandCount h) (lastHeartbeat h) t.

Definition registerSession : M unit :=
  try_catch
    (h <- get_this ;;
     data <- axios (apiUrl h) (authToken h)
               (PostCliSession (sessionId h) (capabilities h) (version h) (platform h)) ;;
     if negb (Data.success data)
     then throw (Error (Js.or_else (Data.error data) "Failed to register session"))
     else console_log)
    (fun error => console_log ;; throw error).

Definition deactivateSession : M unit :=
  try_catch
    (h <- get_this ;;
     _ <- axios (apiUrl h) (authToken h) (DeleteCliSession (sessionId h)) ;;
     ret tt)
    (fun _ => console_log).

Definition executeEchoCommand (commandRequest : Req.t) : M string :=
  try_catch
    (h <- get_this ;;
     handleEchoCommand (Req.command commandRequest) (authToken h) (apiUrl h))
    (fun error => throw (Error ("Echo CLI command failed: " ++ message error))).

Definition executeSystemCommand (commandRequest : Req.t) : M string :=
  let command := Req.command commandRequest in
  let args := match Req.args commandRequest with Some a => a | None => [] end in
  let workingDirectory := Req.workingDirectory commandRequest in
  let timeout := match Req.timeout commandRequest with Some t => t | None => 30000%Z end in
  let fullCommand :=
    if (0 <? length args)%nat then command ++ " " ++ Js.join " " args else command in
  let cwd := if Js.truthy workingDirectory then workingDirectory else None in
  r <- exec (mkExecCall fullCommand timeout (1024 * 1024)%Z cwd) ;;
  match exec_error r with
  | Some m => throw (Error ("Command failed: " ++ m))
  | None =>
      let stdoutStr := stdout r in
      let stderrStr := stderr r in
      let output :=
        Js.or_else (Some (Js.or_else (Some stdoutStr) stderrStr))
                   "Command completed successfully" in
      ret (Js.trim output)
  end.

Definition reportCommandResult (commandRequest : Req.t)
    (result error : option string) (executionTime : Z) : M unit :=
  try_catch
    (h <- get_this ;;
     t <- Date_now ;;
     let commandId :=
       substring 0 16
         (Sha256.hex (sessionId h ++ "-" ++ Req.command commandRequest
                        ++ "-" ++ Js.show_Z t)) in
     timestamp <- Date_now ;;
     data <- axios (apiUrl h) (authToken h)
               (PutRemoteCli
                  (Report.mk commandId
                     (Res.mk (negb (Js.truthy error)) result error
                             executionTime commandId timestamp))) ;;
     if negb (Data.success data) then console_log else ret tt)
    (fun _ => console_log).

Definition executeCommand (commandRequest : Req.t) : M unit :=
  startTime <- Date_now ;;
  set_this (fun h => set_commandCount (commandCount h + 1) h) ;;
  r <- try_catch
         (result <- (if Js.startsWith (Req.command commandRequest) ":"
                     then executeEchoCommand commandRequest
                     else executeSystemCommand commandRequest) ;;
          console_log ;;
          ret (Some result, None))
         (fun err => console_log ;; ret (None, Some (message err))) ;;
  t <- Date_now ;;
  let executionTime := (t - startTime)%Z in
  reportCommandResult commandRequest (fst r) (snd r) executionTime ;;
  console_log.

(** [for (const command of commands) await f(command)] *)
Fixpoint for_of {A} (xs : list A) (f : A -> M unit) : M unit :=
  match xs with
  | [] => ret tt
  | x :: r => f x ;; for_of r f
  end.

Definition checkForCommands : M unit :=
  try_catch
    (t <- Date_now ;;
     set_this (set_lastCommandCheck (Some t)) ;;
     h <- get_this ;;
     data <- axios (apiUrl h) (authToken h) (GetPending (sessionId h)) ;;
     if Data.success data && (0 <? length (Data.commands data))%nat
     then console_log ;; for_of (Data.commands data) executeCommand
     else ret tt)
    (fun _ => console_log).

(** The callback that [startPolling] gives to [setInterval]. *)
Definition poll_tick : M unit :=
  h <- get_this ;;
  if negb (isActive h) then ret tt
  else try_catch checkForCommands (fun _ => console_log).

(** The callback that [startHeartbeat] gives to [setInterval]. *)
Definition heartbeat_tick : M unit :=
  h <- get_this ;;
  if negb (isActive h) then ret tt
  else
    try_catch
      (_ <- axios (apiUrl h) (authToken h) (PutCliSession (sessionId h)) ;;
       t <- Date_now ;;
       set_this (set_lastHeartbeat (Some t)))
      (fun _ => console_log).

Definition startPolling : M unit :=
  i <- setInterval PollTimer 5000 ;;
  set_this (set_pollInterval (Some i)).

Definition startHeartbeat : M unit :=
  i <- setInterval HeartbeatTimer 30000 ;;
  set_this (set_heartbeatInterval (Some i)).

Definition startStatusDisplay : M unit :=
  _ <- setInterval StatusTimer 10000 ;; ret tt.

Definition start : M unit :=
  try_catch
    (console_log ;;
     registerSession ;;
     startPolling ;;
     startHeartbeat ;;
     set_this (set_isActive true) ;;
     t <- Date_now ;;
     set_this (set_startTime t) ;;
     console_log ;;
     startStatusDisplay)
    (fun error => console_log ;; throw error).

Definition stop : M unit :=
  try_catch
    (console_log ;;
     set_this (set_isActive false) ;;
     h <- get_this ;;
     match pollInterval h with
     | Some i => clearInterval i ;; set_this (set_pollInterval None)
     | None => ret tt
     end ;;
     h <- get_this ;;
     match heartbeatInterval h with
     | Some i => clearInterval i ;; set_this (set_heartbeatInterval None)
     | None => ret tt
     end ;;
     deactivateSession ;;
     console_log)
    (fun _ => console_log).

End WithEnv.

(** [new RemoteCommandHandler(apiUrl, authToken)]; [uuid] is what
    [randomUUID()] gives, [version] the package version, [platform] the
    [os] string and [t] the time of construction. *)
Definition new_RemoteCommandHandler
    (apiUrl authToken uuid version platform : string) (t : Z)
    : Handler + JsError :=
  if apiUrl =? "" then inr (Error "API URL is required")
  else
    let n := String.length apiUrl in
    let url := if substring (n - 1) 1 apiUrl =? "/"
               then substring 0 (n - 1) apiUrl else apiUrl in
    inl (mkHandler url authToken uuid false None None
                   ["echo-cli"; "system-commands"] version platform
                   t 0 None None).

(** ** The poll loop on the event loop

    [setInterval] fires the poll callback every period whether or not
    the promise of an earlier firing has settled.  Each firing that
    finds the listener active starts one run of [checkForCommands],
    which is suspended at one [await] at a time: the GET of the pending
    commands, the executor of one command, or the PUT of its result.
    The event loop resumes one suspended run at a time.

    [Loop] orders the events and gives them no time: it admits every
    run of the program and some that the period of the timer or the
    timeout of a command rules out, which is what a property of all
    runs needs.  [Timed], below, gives each event its time. *)

Module Loop.

(** Where a run of [checkForCommands] is suspended; [rest] are the
    commands that the [for ... of] loop has still to take. *)
Inductive Status :=
| AwaitFetch
| AwaitExec (c : Req.t) (rest : list Req.t)
| AwaitReport (c : Req.t) (rest : list Req.t)
| Finished.

(** A run, with the commands that its GET returned. *)
Record Run := mkRun { fetched : list Req.t; status : Status }.

Inductive Entry :=
| Dispatched (tick : nat) (c : Req.t)
| Completed (tick : nat) (c : Req.t)
| Reported (tick : nat) (c : Req.t).

Record State := mkState {
  active : bool;
  runs : list Run;
  log : list Entry
}.

(** What the event loop delivers next. *)
Inductive Label :=
| Fire
| FetchDone (tick : nat) (o : Outcome)
| ExecDone (tick : nat)
| ReportDone (tick : nat)
| Stop.

Fixpoint update (k : nat) (r : Run) (rs : list Run) : list Run :=
  match rs, k with
  | [], _ => []
  | _ :: t, O => r :: t
  | x :: t, S k' => x :: update k' r t
  end.

(** The state after [start()] has completed. *)
Definition init : State := mkState true [] [].

(** The loop body of [checkForCommands] taking its next command. *)
Definition next_command (tick : nat) (fetched rest : list Req.t) (st : State) : State :=
  match rest with
  | [] => mkState (active st) (update tick (mkRun fetched Finished) (runs st)) (log st)
  | c :: rest' =>
      mkState (active st)
              (update tick (mkRun fetched (AwaitExec c rest')) (runs st))
              (log st ++ [Dispatched tick c])
  end.

Definition step (l : Label) (st : State) : option State :=
  match l with
  | Fire =>
      if active st
      then Some (mkState true (runs st ++ [mkRun [] AwaitFetch]) (log st))
      else Some st
  | Stop => Some (mkState false (runs st) (log st))
  | FetchDone k o =>
      match nth_error (runs st) k with
      | Some (mkRun _ AwaitFetch) =>
          match o with
          | Resolved data =>
              if Data.success data && (0 <? length (Data.commands data))%nat
              then Some (next_command k (Data.commands data) (Data.commands data) st)
              else Some (next_command k [] [] st)
          | Rejected _ => Some (next_command k [] [] st)
          end
      | _ => None
      end
  | ExecDone k =>
      match nth_error (runs st) k with
      | Some (mkRun f (AwaitExec c rest)) =>
          Some (mkState (active st)
                        (update k (mkRun f (AwaitReport c rest)) (runs st))
                        (log st ++ [Completed k c]))
      | _ => None
      end
  | ReportDone k =>
      match nth_error (runs st) k with
      | Some (mkRun f (AwaitReport c rest)) =>
          Some (next_command k f rest
                  (mkState (active st) (runs st) (log st ++ [Reported k c])))
      | _ => None
      end
  end.

Fixpoint exec_labels (ls : list Label) (st : State) : option State :=
  match ls with
  | [] => Some st
  | l :: r => match step l st with
              | Some st' => exec_labels r st'
              | None => None
              end
  end.

Inductive reachable : State -> Prop :=
| reach_init : reachable init
| reach_step l st st' : reachable st -> step l st = Some st' -> reachable st'.

Definition is_executing (r : Run) : bool :=
  match status r with
  | AwaitExec _ _ => true
  | _ => false
  end.

(** The number of commands whose executor is running. *)
Definition executing (st : State) : nat :=
  length (filter is_executing (runs st)).

Definition tick_of (e : Entry) : nat :=
  match e with
  | Dispatched k _ | Completed k _ | Reported k _ => k
  end.

(** The entries of the log that belong to one tick. *)
Definition log_of (k : nat) (l : list Entry) : list Entry :=
  filter (fun e => Nat.eqb (tick_of e) k) l.

(** The entries of a command that has been executed and reported. *)
Definition whole (k : nat) (c : Req.t) : list Entry :=
  [Dispatched k c; Completed k c; Reported k c].

(** The log of a tick that has taken all its commands, one after the
    other. *)
Definition sequential (k : nat) (cs : list Req.t) : list Entry :=
  flat_map (whole k) cs.

End Loop.

(** ** The poll loop with time

    A run of [Loop] in which every event has a time, in milliseconds
    from the call of [setInterval] in [startPolling]:
    - time does not go back;
    - the firing number [k] (from 0) of the poll timer is not before
      [period * (k + 1)];
    - [exec] is given [timeout] (30000 when the request has none): a
      command with a positive timeout is stopped when it has run that
      long, so no event is later than that while the command is being
      executed; the timeout 0 sets no limit; with a negative timeout
      [exec] throws at once.
    It admits fewer runs than the program has (a stopped command may
    take some more time to end), which is what a property of some run
    needs. *)

Module Timed.

Record State := mkState {
  clock : Z;
  fired : nat;
  since : list Z;
  base : Loop.State
}.

(** [const { ..., timeout = 30000 } = commandRequest] *)
Definition timeout_of (c : Req.t) : Z :=
  match Req.timeout c with Some t => t | None => 30000%Z end.

(** Whether the command [c], dispatched at [t0], can still be executing
    at [t]. *)
Definition in_time (c : Req.t) (t0 t : Z) : bool :=
  if (timeout_of c =? 0)%Z then true
  else (t <=? t0 + Z.max 0 (timeout_of c))%Z.

(** [since] holds, for each run, the time at which it was last
    resumed: for a run that is executing a command, the time of the
    dispatch. *)
Fixpoint on_time (t : Z) (rs : list Loop.Run) (since : list Z) : bool :=
  match rs, since with
  | r :: rs', t0 :: since' =>
      match Loop.status r with
      | Loop.AwaitExec c _ => in_time c t0 t
      | _ => true
      end && on_time t rs' since'
  | _, _ => true
  end.

Fixpoint stamp (k : nat) (t : Z) (l : list Z) : list Z :=
  match l, k with
  | [], _ => []
  | _ :: r, O => t :: r
  | x :: r, S k' => x :: stamp k' t r
  end.

Definition due (period : Z) (l : Loop.Label) (t : Z) (ts : State) : bool :=
  match l with
  | Loop.Fire => (period * (Z.of_nat (fired ts) + 1) <=? t)%Z
  | _ => true
  end.

Definition init : State := mkState 0 0 [] Loop.init.

Definition step (period t : Z) (l : Loop.Label) (ts : State) : option State :=
  if (clock ts <=? t)%Z
     && on_time t (Loop.runs (base ts)) (since ts)
     && due period l t ts
  then
    match Loop.step l (base ts) with
    | Some st' =>
        Some (mkState t
                (match l with Loop.Fire => S (fired ts) | _ => fired ts end)
                (match l with
                 | Loop.Fire =>
                     if Loop.active (base ts) then (since ts ++ [t])%list
                     else since ts
                 | Loop.FetchDone k _ | Loop.ReportDone k => stamp k t (since ts)
                 | _ => since ts
                 end)
                st')
    | None => None
    end
  else None.

Fixpoint run (period : Z) (ls : list (Z * Loop.Label)) (ts : State) : option State :=
  match ls with
  | [] => Some ts
  | (t, l) :: r =>
      match step period t l ts with
      | Some ts' => run period r ts'
      | None => None
      end
  end.

End Timed.

(** ** The status reporter ([getUptime], [getSessionInfo]) *)

(** [getUptime()]: [Math.floor] of a quotient by a positive number is
    [Z.div]; [%] is the remainder that takes the sign of the dividend,
    [Z.rem]. *)
Definition getUptime : M string :=
  now <- Date_now ;;
  h <- get_this ;;
  let uptimeMs := (now - startTime h)%Z in
  let seconds := (uptimeMs / 1000)%Z in
  let minutes := (seconds / 60)%Z in
  let hours := (minutes / 60)%Z in
  if (0 <? hours)%Z then
    ret (Js.show_Z hours ++ "h " ++ Js.show_Z (Z.rem minutes 60) ++ "m "
           ++ Js.show_Z (Z.rem seconds 60) ++ "s")
  else if (0 <? minutes)%Z then
    ret (Js.show_Z minutes ++ "m " ++ Js.show_Z (Z.rem seconds 60) ++ "s")
  else ret (Js.show_Z seconds ++ "s").

Module SessionInfo.
Record t := mk {
  sessionId : string;
  isActive : bool;
  capabilities : list string;
  version : string;
  platform : string;
  startTime : Z;
  commandCount : Z;
  uptime : string
}.
End SessionInfo.

Definition getSessionInfo : M SessionInfo.t :=
  h <- get_this ;;
  uptime <- getUptime ;;
  ret (SessionInfo.mk (sessionId h) (isActive h) (capabilities h) (version h)
         (platform h) (startTime h) (commandCount h) uptime).

(** ** The [remote] command ([commands/RemoteCommand.ts]) *)

(** The stored configuration ([services/ConfigService.ts]). *)
Module Config.
Record t := mk {
  apiUrl : option string;
  userId : option string;
  authToken : option string;
  firebaseEmail : option string;
  firebasePassword : option string
}.

Definition getApiUrl (c : t) : string := Js.or_else (apiUrl c) "https://app.qirvo.ai".
Definition getUserId (c : t) : option string := userId c.
Definition getAuthToken (c : t) : option string := authToken c.

Definition isConfigured (c : t) : bool :=
  Js.truthy (Some (getApiUrl c)) && Js.truthy (getUserId c) && Js.truthy (getAuthToken c).

Definition setFirebaseCredentials (email password : string) (c : t) : t :=
  mk (apiUrl c) (userId c) (authToken c) (Some email) (Some password).

Definition getFirebaseCredentials (c : t) : option (string * string) :=
  match firebaseEmail c, firebasePassword c with
  | Some email, Some password =>
      if negb (email =? "") && negb (password =? "")
      then Some (email, password) else None
  | _, _ => None
  end.

Definition clearFirebaseCredentials (c : t) : t :=
  mk (apiUrl c) (userId c) (authToken c) None None.
End Config.

Module Remote.

(** The fields of a [RemoteCommand] that change, with the process
    around it: the signals that have a shutdown handler (one entry per
    [process.on]). *)
Record Cli := mkCli {
  remoteHandler : option Handler;
  cli_world : World;
  signals : list string
}.

(** How a call of [startRemoteListener] ends: by [return], by
    [process.exit], or waiting in [keepAlive]. *)
Inductive Ending :=
| Returned
| Exited (code : Z)
| KeepAlive.

(** [getAuthToken()] of [RemoteCommand]. *)
Definition getAuthToken (config : Config.t) : option string :=
  let authToken := Config.getAuthToken config in
  if Js.truthy authToken then authToken else None.

(** The condition on which the interval of [keepAlive] resolves. *)
Definition keepAlive_done (c : Cli) : bool :=
  match remoteHandler c with
  | None => true
  | Some h => negb (isActive h)
  end.

Section WithEnv.
Variable env : Env.
Variable config : Config.t.

(** [startRemoteListener(dashboardUrl)]; [uuid], [version] and
    [platform] are what the constructor of the handler reads. *)
Definition startRemoteListener (uuid version platform dashboardUrl : string)
    (c : Cli) : Ending * Cli :=
  let running := match remoteHandler c with
                 | Some h => isActive h
                 | None => false
                 end in
  if running then (Returned, c)
  else
    match getAuthToken config with
    | None => (Returned, c)
    | Some token =>
        match new_RemoteCommandHandler dashboardUrl token uuid version platform
                (now (cli_world c)) with
        | inr _ => (Exited 1, c)
        | inl h =>
            match start env (mkSt h (cli_world c)) with
            | (inl _, s) =>
                (KeepAlive,
                 mkCli (Some (this s)) (world s)
                       (signals c ++ ["SIGINT"; "SIGTERM"]))
            | (inr _, s) => (Exited 1, mkCli (Some (this s)) (world s) (signals c))
            end
        end
    end.

(** [stopRemoteListener()] *)
Definition stopRemoteListener (c : Cli) : Cli :=
  match remoteHandler c with
  | None => c
  | Some h =>
      match stop env (mkSt h (cli_world c)) with
      | (inl _, s) => mkCli None (world s) (signals c)
      | (inr _, s) => mkCli (Some (this s)) (world s) (signals c)
      end
  end.

(** The handler that [startRemoteListener] installs for SIGINT and
    SIGTERM. *)
Definition on_signal (c : Cli) : Ending * Cli :=
  (Exited 0, stopRemoteListener c).

End WithEnv.
End Remote.

(** ** Vocabulary of the statements *)

(** The first and the last code unit of a string as white space. *)
Definition starts_ws (s : string) : bool :=
  match s with
  | EmptyString => false
  | String c _ => Js.is_ws c
  end.

Fixpoint ends_ws (s : string) : bool :=
  match s with
  | EmptyString => false
  | String c EmptyString => Js.is_ws c
  | String _ r => ends_ws r
  end.

(** The sub-verbs that the [task] and [git] cases of [parseCliCommand]
    compare [subCommand] with. *)
Definition task_subverbs : list string :=
  ["add"; "create"; "list"; "complete"; "done"; "delete"; "remove"].

Definition git_subverbs : list string :=
  ["status"; "commit"; "branches"; "prs"; "pr"; "config"].

Definition known_subverb (table : list string) (subCommand : option string) : bool :=
  match subCommand with
  | Some s => existsb (String.eqb s) table
  | None => false
  end.

(** The two verbs whose case ends in a fixed command with no argument,
    each with its table and that command. *)
Definition fallback_of (verb : string) : option (list string * string) :=
  if verb =? "task" then Some (task_subverbs, ":task list")
  else if verb =? "git" then Some (git_subverbs, ":git status")
  else None.

(** The double quote, U+0022. *)
Definition dq : string := String (ascii_of_nat 34) EmptyString.

(** The line feed, U+000A. *)
Definition nl : string := String (ascii_of_nat 10) EmptyString.

(** The command text [task add "Write docs" -d "details"]. *)
Definition task_add_text : string :=
  "task add " ++ dq ++ "Write docs" ++ dq ++ " -d " ++ dq ++ "details" ++ dq.

(** The [commandId] that [reportCommandResult] computes at time [t]. *)
Definition digest_id (sessionId command : string) (t : Z) : string :=
  substring 0 16 (Sha256.hex (sessionId ++ "-" ++ command ++ "-" ++ Js.show_Z t)).

(** The invocation that [executeSystemCommand] hands to [exec]. *)
Definition system_call (req : Req.t) : ExecCall :=
  let args := match Req.args req with Some a => a | None => [] end in
  mkExecCall
    (if (0 <? length args)%nat
     then Req.command req ++ " " ++ Js.join " " args else Req.command req)
    (match Req.timeout req with Some t => t | None => 30000%Z end)
    1048576%Z
    (if Js.truthy (Req.workingDirectory req) then Req.workingDirectory req else None).

(** The request that [handleEchoCommand] forwards. *)
Definition echo_call (req : Req.t) : HttpCall :=
  let p := parseCliCommand (Req.command req) in
  PostEchoCommand (dashboardCommand p) (args p).

(** The executor that [executeCommand] dispatches to. *)
Definition executor (env : Env) (req : Req.t) : M string :=
  if Js.startsWith (Req.command req) ":"
  then executeEchoCommand env req else executeSystemCommand env req.

(** The state in which the executor starts: the counter incremented. *)
Definition counted (s : St) : St :=
  mkSt (set_commandCount (commandCount (this s) + 1) (this s)) (world s).

(** A request of the handler [h] to the backend. *)
Definition request (h : Handler) (c : HttpCall) : Event :=
  Http (apiUrl h) (authToken h) c.

(** The state after one awaited call [ev]. *)
Definition after (env : Env) (ev : Event) (s : St) : St :=
  mkSt (this s) (record ev (delay env (trace (world s)) ev) (world s)).

Definition register_call (h : Handler) : HttpCall :=
  PostCliSession (sessionId h) (capabilities h) (version h) (platform h).

(** What the forwarding of an internal command makes of the backend's
    answer: the value that [executeEchoCommand] returns or throws. *)
Definition echo_outcome (o : Outcome) : string + JsError :=
  match o with
  | Resolved data =>
      if Data.success data
      then inl (Js.or_else (Data.output data) "Command executed successfully")
      else inr (Error ("Echo CLI command failed: API request failed: "
                         ++ Js.or_else (Data.error data) "Command execution failed"))
  | Rejected e =>
      inr (Error ("Echo CLI command failed: "
                    ++ (if isAxiosError e && Js.truthy (response_error e)
                        then Js.or_else (response_error e) ""
                        else "API request failed: " ++ message e)))
  end.

(** The text that a system command stores when [exec] reports no error. *)
Definition chosen_output (r : ExecOutcome) : string :=
  if negb (stdout r =? "") then stdout r
  else if negb (stderr r =? "") then stderr r
  else "Command completed successfully".

(** The [result] object that [executeCommand] reports for the outcome
    [r] of the executor, at time [t], for a command dispatched at [t0]. *)
Definition result_of (r : string + JsError) (t0 t : Z) (commandId : string) : Res.t :=
  match r with
  | inl out => Res.mk true (Some out) None (t - t0) commandId t
  | inr err => Res.mk false None (Some (message err)) (t - t0) commandId t
  end.

(** What [executeSystemCommand] makes of the outcome of [exec]: an
    error that the callback receives is thrown behind the prefix
    [Command failed: ], an error that [exec] threw itself is thrown as
    it is. *)
Definition system_outcome (r : ExecOutcome) : string + JsError :=
  match exec_error r with
  | Some m => inr (Error (if exec_sync r then m else "Command failed: " ++ m))
  | None => inl (Js.trim (chosen_output r))
  end.

(** The [result] object as [reportCommandResult] builds it from what
    [executeCommand] hands over: [success] is [!error]. *)
Definition report_of (r : string + JsError) (t0 t : Z) (commandId : string) : Res.t :=
  match r with
  | inl out => Res.mk true (Some out) None (t - t0) commandId t
  | inr err =>
      Res.mk (negb (Js.truthy (Some (message err)))) None (Some (message err))
             (t - t0) commandId t
  end.

(** The errors that [exec] throws itself carry a message. *)
Definition thrown_has_message (r : ExecOutcome) : Prop :=
  forall m, exec_sync r = true -> exec_error r = Some m -> m <> "".

(** *** Concrete inputs *)

Definition ok_data : Data.t := Data.mk true None None [].

(** A backend that accepts every request, a shell that prints [hello],
    and calls that take 7 ms. *)
Definition env_ok : Env :=
  mkEnv (fun _ _ => Resolved ok_data)
        (fun _ _ => mkExec None ("hello" ++ nl) "")
        (fun _ _ => 7%Z).

(** A backend that refuses every request with [quota exceeded]. *)
Definition env_quota : Env :=
  mkEnv (fun _ _ => Resolved (Data.mk false (Some "quota exceeded") None []))
        (fun _ _ => mkExec None "" "")
        (fun _ _ => 7%Z).

(** The axios error of an answer with status 429 and the body
    [{success: false, error: quota exceeded}]. *)
Definition quota_status_error : JsError :=
  mkJsError true (Some "quota exceeded") "Request failed with status code 429".

(** A backend that refuses every request with that status and body. *)
Definition env_quota_status : Env :=
  mkEnv (fun _ _ => Rejected quota_status_error)
        (fun _ _ => mkExec None "" "")
        (fun _ _ => 7%Z).

(** A backend whose answer to an internal command is a success with an
    empty output. *)
Definition env_empty_output : Env :=
  mkEnv (fun _ _ => Resolved (Data.mk true None (Some "") []))
        (fun _ _ => mkExec None "" "")
        (fun _ _ => 7%Z).

(** A backend whose answer to an internal command is a success with
    the output [Echo CLI 1.0.0]. *)
Definition env_version : Env :=
  mkEnv (fun _ _ => Resolved (Data.mk true None (Some "Echo CLI 1.0.0") []))
        (fun _ _ => mkExec None "" "")
        (fun _ _ => 7%Z).

(** A shell whose command exits with a non-zero code. *)
Definition env_exit_1 : Env :=
  mkEnv (fun _ _ => Resolved ok_data)
        (fun _ _ => mkExec (Some "Command failed: false") "" "")
        (fun _ _ => 7%Z).

Definition handler0 : Handler :=
  mkHandler "https://app.qirvo.ai" "token"
            "3f2b8c1e-9d47-4a6b-8c2d-5e1f0a7b9c34" false None None
            ["echo-cli"; "system-commands"] "1.0.0" "linux-x64"
            1700000000000 0 None None.

Definition world0 : World := mkWorld [] 1700000000000 [] 0.

(** The message of the [RangeError] that [exec] throws for the
    timeout [-1]. *)
Definition timeout_out_of_range : string :=
  "The value of " ++ dq ++ "timeout" ++ dq
    ++ " is out of range. It must be an unsigned integer. Received -1".

(** A shell whose [exec] refuses a negative timeout. *)
Definition env_rejects_timeout : Env :=
  mkEnv (fun _ _ => Resolved ok_data)
        (fun _ c =>
           if (opt_timeout c <? 0)%Z
           then mkExecOutcome (Some timeout_out_of_range) "" "" true
           else mkExec None "" "")
        (fun _ _ => 7%Z).

(** A listener that has been constructed and not started. *)
Definition st_created : St := mkSt handler0 world0.

(** The listener after a successful [start()]. *)
Definition st_started : St := snd (start env_ok st_created).

Definition req_ls : Req.t :=
  Req.mk "cmd-1" "ls" (Some ["-la"]) None None SystemType "u1"
         "3f2b8c1e-9d47-4a6b-8c2d-5e1f0a7b9c34" "2023-11-14T22:13:20.000Z".

Definition req_false : Req.t :=
  Req.mk "cmd-2" "false" None None None SystemType "u1"
         "3f2b8c1e-9d47-4a6b-8c2d-5e1f0a7b9c34" "2023-11-14T22:13:20.000Z".

Definition req_negative_timeout : Req.t :=
  Req.mk "cmd-5" "ls" None None (Some (-1)%Z) SystemType "u1"
         "3f2b8c1e-9d47-4a6b-8c2d-5e1f0a7b9c34" "2023-11-14T22:13:20.000Z".

Definition req_version : Req.t :=
  Req.mk "cmd-3" ":version" None None None EchoCli "u1"
         "3f2b8c1e-9d47-4a6b-8c2d-5e1f0a7b9c34" "2023-11-14T22:13:20.000Z".

(** The reports in a trace, oldest first. *)
Fixpoint reports (tr : list Event) : list Report.t :=
  match tr with
  | [] => []
  | Http _ _ (PutRemoteCli b) :: r => b :: reports r
  | _ :: r => reports r
  end.

(** The deregistration calls in a trace. *)
Fixpoint deregistrations (tr : list Event) : nat :=
  match tr with
  | [] => 0
  | Http _ _ (DeleteCliSession _) :: r => S (deregistrations r)
  | _ :: r => deregistrations r
  end.

(** *** The poll loop *)

Definition req_sleep : Req.t :=
  Req.mk "cmd-4" "sleep" (Some ["6"]) None None SystemType "u1"
         "3f2b8c1e-9d47-4a6b-8c2d-5e1f0a7b9c34" "2023-11-14T22:13:20.000Z".

Definition pending (cs : list Req.t) : Outcome :=
  Resolved (Data.mk true None None cs).

(** The state that the event loop reaches from [Loop.init] by [ls]. *)
Definition after_labels (ls : list Loop.Label) : Loop.State :=
  match Loop.exec_labels ls Loop.init with
  | Some st => st
  | None => Loop.init
  end.

(** One tick that returned two commands, the first executed and
    reported, the second being executed. *)
Definition st_second_command : Loop.State :=
  after_labels
    [Loop.Fire; Loop.FetchDone 0 (pending [req_sleep; req_ls]);
     Loop.ExecDone 0; Loop.ReportDone 0].

(** A tick whose command is still being executed when the timer fires
    again and the next tick is handed another command. *)
Definition st_overlap : Loop.State :=
  after_labels
    [Loop.Fire; Loop.FetchDone 0 (pending [req_sleep]);
     Loop.Fire; Loop.FetchDone 1 (pending [req_ls])].

(** The period that [startPolling] gives to [setInterval]. *)
Definition poll_period : Z := 5000.

(** A command that sleeps for [5 * n] seconds, with a timeout one
    period longer. *)
Definition req_held (n : nat) : Req.t :=
  Req.mk "cmd-6" "sleep" (Some [Js.show_Z (5 * Z.of_nat n)]) None
         (Some (poll_period * (Z.of_nat n + 1))%Z) SystemType "u1"
         "3f2b8c1e-9d47-4a6b-8c2d-5e1f0a7b9c34" "2023-11-14T22:13:20.000Z".

(** The time at which tick [k] is handed its commands, when the timer
    is exact and the answer takes a millisecond. *)
Definition handed_at (k : nat) : Z := (poll_period * (Z.of_nat k + 1) + 1)%Z.

(** Tick [k] of a listener whose every tick is handed the command [c]:
    the timer fires on time and the GET is answered a millisecond
    later. *)
Definition held_tick (c : Req.t) (k : nat) : list (Z * Loop.Label) :=
  [((poll_period * (Z.of_nat k + 1))%Z, Loop.Fire);
   (handed_at k, Loop.FetchDone k (pending [c]))].

(** The first [n] ticks of that listener. *)
Definition held_ticks (c : Req.t) (n : nat) : list (Z * Loop.Label) :=
  flat_map (held_tick c) (seq 0 n).

(** The state in which the first [k] ticks are each executing [c]. *)
Definition held_state (c : Req.t) (k : nat) : Timed.State :=
  Timed.mkState (match k with O => 0 | S j => handed_at j end) k
    (map handed_at (seq 0 k))
    (Loop.mkState true
       (repeat (Loop.mkRun [c] (Loop.AwaitExec c [])) k)
       (map (fun j => Loop.Dispatched j c) (seq 0 k))).

(** [l1] is an initial segment of [l2]. *)
Definition prefix_of {A} (l1 l2 : list A) : Prop := exists l3, l2 = (l1 ++ l3)%list.

(** What the log of tick [k] is when its run is suspended at [r]. *)
Definition run_inv (k : nat) (r : Loop.Run) (l : list Loop.Entry) : Prop :=
  match Loop.status r with
  | Loop.AwaitFetch => Loop.fetched r = [] /\ l = []
  | Loop.AwaitExec c rest =>
      exists done,
        Loop.fetched r = (done ++ c :: rest)%list
        /\ l = (Loop.sequential k done ++ [Loop.Dispatched k c])%list
  | Loop.AwaitReport c rest =>
      exists done,
        Loop.fetched r = (done ++ c :: rest)%list
        /\ l = (Loop.sequential k done
                ++ [Loop.Dispatched k c; Loop.Completed k c])%list
  | Loop.Finished => l = Loop.sequential k (Loop.fetched r)
  end.

Definition loop_inv (st : Loop.State) : Prop :=
  (forall k r, nth_error (Loop.runs st) k = Some r ->
               run_inv k r (Loop.log_of k (Loop.log st)))
  /\ (forall e, In e (Loop.log st) -> Loop.tick_of e < length (Loop.runs st)).

(** *** Further vocabulary *)

(** The main verbs that the [switch] of [parseCliCommand] has a case
    for. *)
Definition verbs : list string :=
  ["agent"; "task"; "git"; "help"; "h"; "clear"; "cls"; "version"; "time";
   "plugin"; "plugins"; "memory"; "logs"].

Definition recognised (mainCommand : string) : bool :=
  existsb (String.eqb (Js.toLowerCase mainCommand)) verbs.

(** A lower-case hexadecimal digit. *)
Definition is_hex (c : ascii) : bool :=
  let n := nat_of_ascii c in
  (((48 <=? n) && (n <=? 57)) || ((97 <=? n) && (n <=? 102)))%nat.

Fixpoint string_forallb (p : ascii -> bool) (s : string) : bool :=
  match s with
  | EmptyString => true
  | String c r => p c && string_forallb p r
  end.

(** The call that the executor of [req] makes. *)
Definition executor_event (h : Handler) (req : Req.t) : Event :=
  if Js.startsWith (Req.command req) ":"
  then request h (echo_call req) else Shell (system_call req).

(** The calls of a batch: for each command its executor call and then
    its report. *)
Fixpoint batch_events (h : Handler) (cs : list Req.t) (bodies : list Report.t)
    : list Event :=
  match cs, bodies with
  | c :: cs', b :: bodies' =>
      executor_event h c :: request h (PutRemoteCli b) :: batch_events h cs' bodies'
  | _, _ => []
  end.

(** Every live timer has an identifier below the next one to be given. *)
Definition timers_fresh (w : World) : Prop :=
  Forall (fun t => timer_id t < next_timer w) (timers w).

(** [clearInterval] of an interval handle that may be [null]. *)
Definition cleared (i : option nat) (ts : list Timer) : list Timer :=
  match i with
  | Some i => filter (fun t => negb (Nat.eqb (timer_id t) i)) ts
  | None => ts
  end.

(** The three timers that [start()] installs when the next timer
    identifier is [i]. *)
Definition start_timers (i : nat) : list Timer :=
  [mkTimer i PollTimer 5000; mkTimer (S i) HeartbeatTimer 30000;
   mkTimer (S (S i)) StatusTimer 10000].

(** The last code unit of a string. *)
Fixpoint last_char (s : string) : option ascii :=
  match s with
  | EmptyString => None
  | String c EmptyString => Some c
  | String _ r => last_char r
  end.

(** * Properties *)

(** ** SHA-256 on the test vectors of FIPS 180 *)

Example sha256_empty :
  Sha256.hex "" = "e3b0c44298fc1c149afbf4c8996fb92427ae41e4649b934ca495991b7852b855".
Proof. vm_compute. reflexivity. Qed.

Example sha256_abc :
  Sha256.hex "abc" = "ba7816bf8f01cfea414140de5dae2223b00361a396177a9cb410ff61f20015ad".
Proof. vm_compute. reflexivity. Qed.

Example sha256_two_blocks :
  Sha256.hex "abcdbcdecdefdefgefghfghighijhijkijkljklmklmnlmnomnopnopq"
  = "248d6a61d20638b8e5c026930c3e6039a33ce45964ff2167f6ecedd419db06c1".
Proof. vm_compute. reflexivity. Qed.

(** ** The command translator *)

Section Translator.

Lemma starts_ws_trimStart (s : string) : starts_ws (Js.trimStart s) = false.
Proof.
  induction s as [|c r IH]; simpl; [reflexivity|].
  destruct (Js.is_ws c) eqn:E; [exact IH|].
  simpl. exact E.
Qed.

Lemma ends_ws_trimEnd (s : string) : ends_ws (Js.trimEnd s) = false.
Proof.
  induction s as [|c r IH]; simpl; [reflexivity|].
  destruct (Js.trimEnd r) as [|c' r'] eqn:E.
  - destruct (Js.is_ws c) eqn:W; simpl; [reflexivity|exact W].
  - exact IH.
Qed.

Lemma starts_ws_trimEnd (s : string) :
  starts_ws s = false -> starts_ws (Js.trimEnd s) = false.
Proof.
  destruct s as [|c r]; simpl; [reflexivity|].
  intros W. destruct (Js.trimEnd r); rewrite ?W; simpl; exact W.
Qed.

Lemma trim_trimmed (s : string) :
  starts_ws (Js.trim s) = false /\ ends_ws (Js.trim s) = false.
Proof.
  unfold Js.trim. split.
  - apply starts_ws_trimEnd, starts_ws_trimStart.
  - apply ends_ws_trimEnd.
Qed.

Lemma ends_ws_cons (c : ascii) (r : string) :
  ends_ws (String c r) = false -> r <> "" -> ends_ws r = false.
Proof. destruct r; simpl; [congruence|auto]. Qed.

Lemma ends_ws_cons_ws (c : ascii) (r : string) :
  ends_ws (String c r) = false -> Js.is_ws c = true -> r <> "".
Proof. intros E W ->. simpl in E. congruence. Qed.

Lemma append_unit_nonempty (p : string) (c : ascii) : p ++ String c "" <> "".
Proof. destruct p; discriminate. Qed.

(** The pieces of a string that does not end in white space: all but
    the first are non-empty, and the first is empty only when nothing
    was read before it and the string is empty or opens with white
    space. *)
Lemma split_from_pieces (s : string) :
  forall piece in_ws,
    ends_ws s = false ->
    exists first rest,
      Js.split_from piece in_ws s = first :: rest
      /\ Forall (fun x => x <> "") rest
      /\ (first = "" ->
          piece = "" /\ (s = "" \/ (in_ws = false /\ starts_ws s = true))).
Proof.
  induction s as [|c r IH]; intros piece in_ws E.
  - exists piece, []. simpl. repeat split; auto.
  - simpl. destruct (Js.is_ws c) eqn:W.
    + assert (Hr : r <> "") by (eapply ends_ws_cons_ws; eauto).
      destruct (IH "" true (ends_ws_cons _ _ E Hr)) as (f & t & Hs & Ht & Hf).
      assert (Hne : f <> "").
      { intros Hz. destruct (Hf Hz) as [_ [?|[? _]]]; congruence. }
      destruct in_ws.
      * exists f, t. rewrite Hs. repeat split; auto; contradiction.
      * exists piece, (f :: t). rewrite Hs. repeat split; auto.
    + assert (Er : ends_ws r = false).
      { destruct r; [reflexivity|]. apply (ends_ws_cons c); [exact E|discriminate]. }
      destruct (IH (piece ++ String c "") false Er) as (f & t & Hs & Ht & Hf).
      exists f, t. rewrite Hs. split; [reflexivity|]. split; [exact Ht|].
      intros Hz. destruct (Hf Hz) as [Hp _].
      exfalso. exact (append_unit_nonempty _ _ Hp).
Qed.

(** [split] never returns an empty array. *)
Lemma split_from_nonempty (s : string) :
  forall piece in_ws, Js.split_from piece in_ws s <> [].
Proof.
  induction s as [|c r IH]; intros piece in_ws; simpl; [discriminate|].
  destruct (Js.is_ws c); [destruct in_ws|]; try discriminate; apply IH.
Qed.

Lemma parts_of_nonempty (command : string) : parts_of command <> [].
Proof. unfold parts_of, Js.split_ws. apply split_from_nonempty. Qed.

(** No token after the first is the empty string. *)
Lemma parts_of_tail (command mainCommand : string) (rest : list string) :
  parts_of command = mainCommand :: rest -> Forall (fun x => x <> "") rest.
Proof.
  unfold parts_of, Js.split_ws. intros H.
  match type of H with Js.split_from _ _ (Js.trim ?c) = _ => set (t := c) in * end.
  destruct (split_from_pieces (Js.trim t) "" false (proj2 (trim_trimmed t)))
    as (f & r & Hs & Hr & _).
  rewrite Hs in H. injection H as _ <-. exact Hr.
Qed.

Lemma known_subverb_false (table : list string) (s : string) :
  known_subverb table (Some s) = false ->
  forall v, In v table -> sub_is (Some s) v = false.
Proof.
  simpl. intros H v Hv.
  destruct (s =? v) eqn:E; [|reflexivity].
  rewrite <- H. symmetry. apply existsb_exists. exists v. auto.
Qed.

(** C4 (defect of the code): on the empty input, and on the sigil
    alone, the translator returns the command [:] with no argument, not
    the help command.  The guard [parts.length === 0] that returns
    [:help] is taken for no input: [split] gives one empty token for
    the empty string. *)
Theorem parseCliCommand_empty_input :
  parts_of "" = [""]
  /\ parseCliCommand "" = mkParsed ":" []
  /\ parseCliCommand ":" = mkParsed ":" []
  /\ (forall command, parts_of command <> []).
Proof. repeat split. apply parts_of_nonempty. Qed.

(** C5 (amended): the command text [task add "Write docs" -d "details"]
    translates to [:task add] with the four white-space separated
    tokens as arguments, the quote characters kept. *)
Theorem parseCliCommand_task_add_quoted :
  parseCliCommand task_add_text
  = mkParsed ":task add"
      [dq ++ "Write"; "docs" ++ dq; "-d"; dq ++ "details" ++ dq].
Proof. vm_compute. reflexivity. Qed.

(** C5, as stated, fails: the quoted phrase is not one argument. *)
Lemma parseCliCommand_task_add_not_grouped :
  parseCliCommand task_add_text
  <> mkParsed ":task add" ["Write docs"; "-d"; "details"].
Proof. vm_compute. discriminate. Qed.

Lemma filter_Boolean_tokens (l : list string) :
  Forall (fun x => x <> "") l -> Js.filter_Boolean (map Some l) = l.
Proof.
  induction 1 as [|x t Hx _ IH]; simpl; [reflexivity|].
  apply String.eqb_neq in Hx. rewrite Hx, IH. reflexivity.
Qed.

Lemma filter_Boolean_sub_and_args (rest : list string) :
  Forall (fun x => x <> "") rest ->
  Js.filter_Boolean (hd_error rest :: map Some (tl rest)) = rest.
Proof.
  destruct rest as [|x t]; [reflexivity|]. intros H.
  exact (filter_Boolean_tokens (x :: t) H).
Qed.

(** C10 (amended): when the main verb is [task] or [git] (in any
    letter case) and the sub-verb is not in that verb's table, the
    translator returns the verb's default command ([:task list],
    [:git status]) with an empty argument list: the remaining tokens
    are discarded.  When the main verb is [agent], whose table is
    [ask], and the sub-verb is not in it, the translator returns
    [:agent] with all the remaining tokens, the unrecognized sub-verb
    first. *)
Theorem unknown_subverb_falls_back
    (command mainCommand : string) (rest : list string) :
  parts_of command = mainCommand :: rest ->
  (forall (table : list string) (dflt : string),
      fallback_of (Js.toLowerCase mainCommand) = Some (table, dflt) ->
      known_subverb table (hd_error rest) = false ->
      parseCliCommand command = mkParsed dflt [])
  /\ (Js.toLowerCase mainCommand = "agent" ->
      known_subverb ["ask"] (hd_error rest) = false ->
      parseCliCommand command = mkParsed ":agent" rest).
Proof.
  intros Hp.
  pose proof (parts_of_tail _ _ _ Hp) as Hne.
  unfold parseCliCommand. rewrite Hp. split.
  - intros table dflt Hf Hk.
    unfold fallback_of in Hf.
    destruct (Js.toLowerCase mainCommand =? "task") eqn:Et.
    + apply String.eqb_eq in Et. rewrite Et. injection Hf as <- <-.
      destruct rest as [|sub args0]; [reflexivity|].
      cbn [hd_error] in *.
      pose proof (known_subverb_false _ _ Hk) as K.
      cbn -[sub_is].
      rewrite !K by (simpl; tauto). reflexivity.
    + destruct (Js.toLowerCase mainCommand =? "git") eqn:Eg; [|discriminate].
      apply String.eqb_eq in Eg. rewrite Eg. injection Hf as <- <-.
      destruct rest as [|sub args0]; [reflexivity|].
      cbn [hd_error] in *.
      pose proof (known_subverb_false _ _ Hk) as K.
      assert (Hs : sub <> "") by (inversion Hne; assumption).
      apply String.eqb_neq in Hs.
      cbn -[sub_is].
      rewrite !K by (simpl; tauto). rewrite Hs. reflexivity.
  - intros Ha Hk. rewrite Ha. cbv zeta. cbn [String.eqb Ascii.eqb Bool.eqb].
    change ("agent" =? "agent") with true. cbv iota.
    rewrite (filter_Boolean_sub_and_args rest Hne).
    destruct rest as [|sub args0]; [reflexivity|].
    cbn [hd_error] in *.
    rewrite (known_subverb_false _ _ Hk "ask") by (simpl; tauto).
    reflexivity.
Qed.

Lemma unknown_subverb_falls_back_witness :
  parseCliCommand "task frobnicate x" = mkParsed ":task list" []
  /\ parseCliCommand "git frobnicate x" = mkParsed ":git status" []
  /\ parseCliCommand "Agent summarize my day"
     = mkParsed ":agent" ["summarize"; "my"; "day"].
Proof.
  split; [|split].
  - apply (proj1 (unknown_subverb_falls_back "task frobnicate x" "task"
                    ["frobnicate"; "x"] eq_refl) task_subverbs ":task list");
      reflexivity.
  - apply (proj1 (unknown_subverb_falls_back "git frobnicate x" "git"
                    ["frobnicate"; "x"] eq_refl) git_subverbs ":git status");
      reflexivity.
  - apply (proj2 (unknown_subverb_falls_back "Agent summarize my day" "Agent"
                    ["summarize"; "my"; "day"] eq_refl)); reflexivity.
Defined.

(** C10, as stated, fails for the verb [agent]: its only sub-verb is
    [ask], and an unrecognized sub-verb is passed on with the arguments
    that follow it. *)
Lemma agent_unknown_subverb_passed_through :
  known_subverb ["ask"] (Some "frobnicate") = false
  /\ parseCliCommand "agent frobnicate x"
     = mkParsed ":agent" ["frobnicate"; "x"].
Proof. split; reflexivity. Qed.

End Translator.

(** ** Reporting, registration and shutdown *)

Section Lifecycle.

#[local] Arguments Sha256.hex : simpl never.
#[local] Arguments Js.show_Z : simpl never.
#[local] Arguments substring : simpl never.

Ltac run_calls :=
  unfold try_catch, bind, ret, throw, get_this, set_this, Date_now,
    console_log, axios, exec, setInterval, clearInterval; cbn.

Lemma reportCommandResult_run
    (env : Env) (req : Req.t) (result error : option string)
    (executionTime : Z) (s : St) :
  reportCommandResult env req result error executionTime s
  = (inl tt,
     after env
       (request (this s)
          (PutRemoteCli
             (Report.mk (digest_id (sessionId (this s)) (Req.command req) (now (world s)))
                (Res.mk (negb (Js.truthy error)) result error executionTime
                   (digest_id (sessionId (this s)) (Req.command req) (now (world s)))
                   (now (world s))))))
       s).
Proof.
  unfold reportCommandResult, after, request, digest_id. run_calls.
  destruct (http env _ _) as [d|e]; [destruct (Data.success d)|]; reflexivity.
Qed.

Example constructor_strips_slash :
  new_RemoteCommandHandler "https://app.qirvo.ai/" "token"
    "3f2b8c1e-9d47-4a6b-8c2d-5e1f0a7b9c34" "1.0.0" "linux-x64" 1700000000000
  = inl handler0.
Proof. reflexivity. Qed.

Example constructor_requires_url :
  new_RemoteCommandHandler "" "token"
    "3f2b8c1e-9d47-4a6b-8c2d-5e1f0a7b9c34" "1.0.0" "linux-x64" 1700000000000
  = inr (Error "API URL is required").
Proof. reflexivity. Qed.

(** C1 (amended): the report is one PUT whose [commandId], at the top
    of the body and inside [result], is the first 16 hexadecimal digits
    of the SHA-256 digest of the session identifier, the command text
    and the current time, joined by [-]; the request's [id] is not
    consulted.  The report never throws. *)
Theorem reportCommandResult_commandId
    (env : Env) (req : Req.t) (result error : option string)
    (executionTime : Z) (s : St) :
  let h := this s in
  let t := now (world s) in
  let commandId := digest_id (sessionId h) (Req.command req) t in
  let body :=
    Report.mk commandId
      (Res.mk (negb (Js.truthy error)) result error executionTime commandId t) in
  reportCommandResult env req result error executionTime s
  = (inl tt, after env (request h (PutRemoteCli body)) s).
Proof. cbv zeta. apply reportCommandResult_run. Qed.

(** C1, as stated, fails: for the request [cmd-1] the body carries a
    digest prefix, not the request's [id]. *)
Lemma report_commandId_is_not_request_id :
  map Report.commandId
      (reports (trace (world (snd (executeCommand env_ok req_ls st_started)))))
  = ["1ffa52eea17019cb"]
  /\ Req.id req_ls = "cmd-1".
Proof. split; vm_compute; reflexivity. Qed.

Lemma deactivateSession_run (env : Env) (s : St) :
  deactivateSession env s
  = (inl tt, after env (request (this s) (DeleteCliSession (sessionId (this s)))) s).
Proof.
  unfold deactivateSession, after, request. run_calls.
  destruct (http env _ _); reflexivity.
Qed.

(** C3 (amended): [stop()] never throws, and leaves the listener
    inactive with both interval handles cleared; a second [stop()]
    changes neither the handler nor the timers, and issues one more
    DELETE of the session, so that two calls are visible to the backend
    as two deregistrations. *)
Theorem stop_twice (env : Env) (s : St) :
  let s1 := snd (stop env s) in
  let s2 := snd (stop env s1) in
  let del := request (this s) (DeleteCliSession (sessionId (this s))) in
  fst (stop env s) = inl tt
  /\ fst (stop env s1) = inl tt
  /\ isActive (this s1) = false
  /\ pollInterval (this s1) = None
  /\ heartbeatInterval (this s1) = None
  /\ this s2 = this s1
  /\ timers (world s2) = timers (world s1)
  /\ trace (world s1) = (trace (world s) ++ [del])%list
  /\ trace (world s2) = (trace (world s) ++ [del; del])%list.
Proof.
  destruct s as [h w]. destruct h as [u a sid act [i|] [j|] c v p st n lh lc];
    unfold stop, deactivateSession, request; run_calls;
    repeat match goal with
           | |- context [match http env ?t ?q with _ => _ end] =>
               destruct (http env t q); cbn
           end;
    rewrite <- ?app_assoc; repeat split; reflexivity.
Qed.

(** C3, as stated, fails: stopping a started listener twice sends two
    deregistration calls. *)
Lemma stop_twice_deregisters_twice :
  deregistrations (trace (world (snd (stop env_ok st_started)))) = 1
  /\ deregistrations
       (trace (world (snd (stop env_ok (snd (stop env_ok st_started)))))) = 2.
Proof. split; vm_compute; reflexivity. Qed.

(** C9 (amended): when registration fails, [start()] rejects with the
    error of the failure: for a request that fails (network error, or
    an answer with an error status, whatever its body) the axios error
    as it is; for an answer with a success status and the body
    [{success: false, error: e}] an [Error] whose message is [e], or
    [Failed to register session] without one.  The handler is left as
    it was, so it is not active; no timer is installed; and the only
    call made is the one registration request. *)
Theorem start_rejects_when_registration_fails (env : Env) (s : St) :
  isActive (this s) = false ->
  let h := this s in
  let post := register_call h in
  let s' := after env (request h post) s in
  isActive (this s') = false
  /\ timers (world s') = timers (world s)
  /\ trace (world s') = (trace (world s) ++ [request h post])%list
  /\ (forall e, http env (trace (world s)) post = Rejected e ->
        start env s = (inr e, s'))
  /\ (forall data,
        http env (trace (world s)) post = Resolved data ->
        Data.success data = false ->
        start env s
        = (inr (Error (Js.or_else (Data.error data) "Failed to register session")),
           s'))
  /\ (forall data e,
        http env (trace (world s)) post = Resolved data ->
        Data.success data = false ->
        Data.error data = Some e -> e <> "" ->
        exists err, start env s = (inr err, s') /\ message err = e).
Proof.
  intros Hi h post s'. subst h post s'. destruct s as [h w].
  unfold after, request, register_call. cbn [this world] in *.
  assert (Hres : forall data,
            http env (trace w)
              (PostCliSession (sessionId h) (capabilities h) (version h) (platform h))
            = Resolved data ->
            Data.success data = false ->
            start env (mkSt h w)
            = (inr (Error (Js.or_else (Data.error data) "Failed to register session")),
               mkSt h (record
                         (Http (apiUrl h) (authToken h)
                            (PostCliSession (sessionId h) (capabilities h)
                               (version h) (platform h)))
                         (delay env (trace w)
                            (Http (apiUrl h) (authToken h)
                               (PostCliSession (sessionId h) (capabilities h)
                                  (version h) (platform h)))) w))).
  { intros d Hd Hs. unfold start, registerSession. run_calls.
    rewrite Hd, Hs. reflexivity. }
  repeat split; auto.
  - intros e He. unfold start, registerSession. run_calls.
    rewrite He. reflexivity.
  - intros d e Hd Hs He Hne. eexists. split; [apply Hres; eauto|].
    rewrite He. cbn. apply String.eqb_neq in Hne. rewrite Hne. reflexivity.
Qed.

Lemma start_rejects_quota_exceeded :
  start env_quota st_created
  = (inr (Error "quota exceeded"),
     after env_quota (request handler0 (register_call handler0)) st_created).
Proof.
  pose proof (start_rejects_when_registration_fails env_quota st_created
                eq_refl) as H.
  cbv zeta in H. destruct H as (_ & _ & _ & _ & H & _).
  exact (H _ eq_refl eq_refl).
Defined.

(** C9, as stated, fails when the backend refuses with an error
    status: [start()] rejects with the axios error, whose message is
    the one of the status and not the [error] of the body. *)
Lemma start_rejects_with_status_message :
  fst (start env_quota_status st_created) = inr quota_status_error
  /\ response_error quota_status_error = Some "quota exceeded"
  /\ message quota_status_error <> "quota exceeded".
Proof. split; [vm_compute; reflexivity|split; [reflexivity|discriminate]]. Qed.

(** ** The local executor *)

Lemma executeSystemCommand_run (env : Env) (req : Req.t) (s : St) :
  executeSystemCommand env req s
  = (system_outcome (shell env (trace (world s)) (system_call req)),
     after env (Shell (system_call req)) s).
Proof.
  unfold executeSystemCommand, exec, system_call, system_outcome, chosen_output, after.
  run_calls.
  match goal with |- context [exec_error ?x] => set (r := x) end.
  destruct (exec_error r) eqn:E; [destruct (exec_sync r)|];
    cbv beta iota; rewrite ?E; try reflexivity.
  unfold Js.or_else, Js.truthy.
  destruct (stdout r =? "") eqn:E1; cbn; rewrite ?E1;
    [destruct (stderr r =? "") eqn:E2; cbn; rewrite ?E2|]; reflexivity.
Qed.

Lemma executeEchoCommand_run (env : Env) (req : Req.t) (s : St) :
  executeEchoCommand env req s
  = (echo_outcome (http env (trace (world s)) (echo_call req)),
     after env (request (this s) (echo_call req)) s).
Proof.
  unfold executeEchoCommand, handleEchoCommand, echo_call, echo_outcome,
    after, request. run_calls.
  destruct (http env _ _) as [d|e]; cbn.
  - destruct (Data.success d); reflexivity.
  - destruct (isAxiosError e && Js.truthy (response_error e)); reflexivity.
Qed.

(** The message of an error thrown by the forwarding is never empty. *)
Lemma echo_outcome_message (o : Outcome) (err : JsError) :
  echo_outcome o = inr err -> Js.truthy (Some (message err)) = true.
Proof.
  unfold echo_outcome.
  destruct o as [d|e]; [destruct (Data.success d)|];
    intros H; inversion H; reflexivity.
Qed.

(** Nor is that of an error thrown by the system executor, when the
    errors that [exec] throws itself carry a message. *)
Lemma system_outcome_message (r : ExecOutcome) (err : JsError) :
  thrown_has_message r ->
  system_outcome r = inr err -> Js.truthy (Some (message err)) = true.
Proof.
  unfold system_outcome, thrown_has_message. intros Hm.
  destruct (exec_error r) as [m|]; [|discriminate].
  destruct (exec_sync r); intros H; inversion H; [|reflexivity].
  specialize (Hm m eq_refl eq_refl). apply String.eqb_neq in Hm.
  cbn. rewrite Hm. reflexivity.
Qed.

(** So the message of an error thrown by an executor is not empty. *)
Lemma executor_error_message (env : Env) (req : Req.t) (s : St) (err : JsError) :
  thrown_has_message (shell env (trace (world s)) (system_call req)) ->
  fst (executor env req s) = inr err -> Js.truthy (Some (message err)) = true.
Proof.
  intros Hm. unfold executor. destruct (Js.startsWith _ _).
  - rewrite executeEchoCommand_run. apply echo_outcome_message.
  - rewrite executeSystemCommand_run. apply system_outcome_message, Hm.
Qed.

Lemma executeCommand_run (env : Env) (req : Req.t) (s : St) :
  executeCommand env req s
  = (let run := executor env req (counted s) in
     let s2 := snd run in
     let t := now (world s2) in
     let commandId := digest_id (sessionId (this s2)) (Req.command req) t in
     (inl tt,
      after env
        (request (this s2)
           (PutRemoteCli
              (Report.mk commandId (report_of (fst run) (now (world s)) t commandId))))
        s2)).
Proof.
  cbv zeta.
  unfold executeCommand, executor, counted in *.
  unfold bind at 1 2 3 4 5. unfold Date_now, set_this at 1. cbn [fst snd this world].
  unfold try_catch at 1. unfold bind at 1 2.
  destruct (Js.startsWith (Req.command req) ":").
  - destruct (executeEchoCommand env req _) as [[out|err] s2];
      cbn [fst snd] in *; unfold console_log, ret; cbn [fst snd];
      unfold bind; rewrite reportCommandResult_run; reflexivity.
  - destruct (executeSystemCommand env req _) as [[out|err] s2];
      cbn [fst snd] in *; unfold console_log, ret; cbn [fst snd];
      unfold bind; rewrite reportCommandResult_run; reflexivity.
Qed.

(** When the error thrown carries a message, the result reported is
    the one of a failure. *)
Lemma report_of_result (r : string + JsError) (t0 t : Z) (commandId : string) :
  (forall err, r = inr err -> Js.truthy (Some (message err)) = true) ->
  report_of r t0 t commandId = result_of r t0 t commandId.
Proof.
  intros H. destruct r as [out|err]; [reflexivity|].
  unfold report_of, result_of. rewrite (H err eq_refl). reflexivity.
Qed.

(** C8: [executeCommand] never throws and reports one result.  When
    the executor throws, the result has [success: false], the thrown
    error's message as [error] and a null [output]; when it returns,
    the result has [success: true], the returned text as [output] and a
    null [error].  So [success] is true exactly when no error occurred
    and [error] is present exactly when [success] is false.  A system
    command for which the callback of [exec] receives an error
    (non-zero exit, timeout, buffer overrun) throws [Command failed: ]
    followed by the message of that error; one whose [exec] throws
    itself (arguments refused, such as a negative timeout) throws that
    error as it is.  The errors that [exec] throws itself are taken to
    carry a message. *)
Theorem executeCommand_reports_outcome (env : Env) (req : Req.t) (s : St) :
  let r := shell env (trace (world s)) (system_call req) in
  thrown_has_message r ->
  let run := executor env req (counted s) in
  let s2 := snd run in
  let t := now (world s2) in
  let commandId := digest_id (sessionId (this s2)) (Req.command req) t in
  let res := result_of (fst run) (now (world s)) t commandId in
  executeCommand env req s
  = (inl tt, after env (request (this s2) (PutRemoteCli (Report.mk commandId res))) s2)
  /\ (forall err, fst run = inr err ->
        Res.success res = false
        /\ Res.error res = Some (message err)
        /\ Res.output res = None)
  /\ (Res.success res = true <-> exists out, fst run = inl out)
  /\ (Res.error res <> None <-> Res.success res = false)
  /\ (forall m,
        Js.startsWith (Req.command req) ":" = false ->
        exec_error r = Some m -> exec_sync r = false ->
        fst run = inr (Error ("Command failed: " ++ m)))
  /\ (forall m,
        Js.startsWith (Req.command req) ":" = false ->
        exec_error r = Some m -> exec_sync r = true ->
        fst run = inr (Error m)).
Proof.
  intros r Hm. cbv zeta. split.
  { rewrite executeCommand_run. cbv zeta. rewrite report_of_result; [reflexivity|].
    intros err. apply (executor_error_message env req (counted s)). exact Hm. }
  repeat split.
  - rewrite H. reflexivity.
  - rewrite H. reflexivity.
  - rewrite H. reflexivity.
  - destruct (fst (executor env req (counted s))) as [out|err];
      [eauto|discriminate].
  - intros [out ->]. reflexivity.
  - destruct (fst (executor env req (counted s))); cbn; congruence.
  - destruct (fst (executor env req (counted s))); cbn; congruence.
  - intros m Hc He Hsy. unfold executor. rewrite Hc, executeSystemCommand_run.
    cbn [fst counted world]. unfold system_outcome. fold r. rewrite He, Hsy.
    reflexivity.
  - intros m Hc He Hsy. unfold executor. rewrite Hc, executeSystemCommand_run.
    cbn [fst counted world]. unfold system_outcome. fold r. rewrite He, Hsy.
    reflexivity.
Qed.

Lemma executeCommand_reports_exit_1 :
  fst (executor env_exit_1 req_false (counted st_started))
  = inr (Error "Command failed: Command failed: false")
  /\ map (fun b => (Res.success (Report.result b), Res.output (Report.result b),
                    Res.error (Report.result b)))
       (reports (trace (world (snd (executeCommand env_rejects_timeout
                                      req_negative_timeout st_started)))))
     = [(false, None, Some timeout_out_of_range)].
Proof.
  split.
  - pose proof (executeCommand_reports_outcome env_exit_1 req_false st_started) as H.
    cbv zeta in H.
    destruct H as (_ & _ & _ & _ & H & _); [intros m Hs; discriminate Hs|].
    exact (H "Command failed: false" eq_refl eq_refl eq_refl).
  - pose proof (executeCommand_reports_outcome env_rejects_timeout
                  req_negative_timeout st_started) as H.
    cbv zeta in H.
    destruct H as (H & _).
    + intros m _ Hm. injection Hm as <-. discriminate.
    + rewrite H. reflexivity.
Defined.

(** C7: for a system command that [exec] completes without error, the
    stored output is the standard-output text if it is not empty,
    otherwise the standard-error text if it is not empty, otherwise
    [Command completed successfully], with the white space at both ends
    removed; the result is reported with [success: true]. *)
Theorem system_command_output (env : Env) (req : Req.t) (s : St) :
  Js.startsWith (Req.command req) ":" = false ->
  exec_error (shell env (trace (world s)) (system_call req)) = None ->
  let r := shell env (trace (world s)) (system_call req) in
  let stored := Js.trim (chosen_output r) in
  let s2 := after env (Shell (system_call req)) (counted s) in
  let t := now (world s2) in
  let commandId := digest_id (sessionId (this s)) (Req.command req) t in
  executeCommand env req s
  = (inl tt,
     after env
       (request (this s2)
          (PutRemoteCli
             (Report.mk commandId
                (Res.mk true (Some stored) None (t - now (world s)) commandId t))))
       s2)
  /\ starts_ws stored = false
  /\ ends_ws stored = false.
Proof.
  intros Hc He. cbv zeta. split; [|apply trim_trimmed].
  rewrite executeCommand_run. cbv zeta. unfold executor.
  rewrite Hc, executeSystemCommand_run. unfold system_outcome.
  cbn [fst snd counted world this] in *.
  rewrite He. reflexivity.
Qed.

Lemma system_command_output_hello :
  map (fun b => Res.output (Report.result b))
      (reports (trace (world (snd (executeCommand env_ok req_ls st_started)))))
  = [Some "hello"].
Proof.
  destruct (system_command_output env_ok req_ls st_started eq_refl eq_refl)
    as [H _].
  rewrite H. reflexivity.
Defined.

(** C6 (amended): an internal command is forwarded once and its
    outcome reported once, and [executeCommand] never throws.  When the
    backend reports success with a non-empty output, that output is the
    result, verbatim; with an empty or absent output the result is
    [Command executed successfully].  When the backend reports failure
    or the request fails, the result has [success: false], a null
    output and an error message that opens with
    [Echo CLI command failed: ]. *)
Theorem internal_command_result (env : Env) (req : Req.t) (s : St) :
  Js.startsWith (Req.command req) ":" = true ->
  let answer := http env (trace (world s)) (echo_call req) in
  let s2 := after env (request (this s) (echo_call req)) (counted s) in
  let t := now (world s2) in
  let commandId := digest_id (sessionId (this s)) (Req.command req) t in
  let res := result_of (echo_outcome answer) (now (world s)) t commandId in
  executeCommand env req s
  = (inl tt, after env (request (this s2) (PutRemoteCli (Report.mk commandId res))) s2)
  /\ (forall data o,
        answer = Resolved data -> Data.success data = true ->
        Data.output data = Some o -> o <> "" ->
        Res.success res = true /\ Res.output res = Some o /\ Res.error res = None)
  /\ (forall data,
        answer = Resolved data -> Data.success data = true ->
        Js.truthy (Data.output data) = false ->
        Res.success res = true
        /\ Res.output res = Some "Command executed successfully"
        /\ Res.error res = None)
  /\ (forall data,
        answer = Resolved data -> Data.success data = false ->
        Res.success res = false
        /\ Res.output res = None
        /\ Res.error res
           = Some ("Echo CLI command failed: API request failed: "
                     ++ Js.or_else (Data.error data) "Command execution failed"))
  /\ (forall e,
        answer = Rejected e ->
        Res.success res = false
        /\ Res.output res = None
        /\ exists m, Res.error res = Some ("Echo CLI command failed: " ++ m)).
Proof.
  intros Hc. cbv zeta. split.
  - rewrite executeCommand_run. cbv zeta. unfold executor.
    rewrite Hc, executeEchoCommand_run. cbn [fst snd].
    rewrite report_of_result; [reflexivity|].
    intros err. apply echo_outcome_message.
  - repeat split; try (rewrite H; cbn; rewrite ?H0; reflexivity).
    + rewrite H. cbn. rewrite H0, H1. cbn.
      apply String.eqb_neq in H2. rewrite H2. reflexivity.
    + rewrite H. cbn. rewrite H0. cbn. f_equal.
      destruct (Data.output data) as [o|]; cbn in *; [|reflexivity].
      destruct (o =? ""); [reflexivity|discriminate].
    + rewrite H. cbn. eexists. reflexivity.
Qed.

Lemma internal_command_result_version :
  map Report.result
      (reports (trace (world (snd (executeCommand env_version req_version st_started)))))
  = [Res.mk true (Some "Echo CLI 1.0.0") None 7 "3f393dcf1e714e56" 1700000000014].
Proof.
  destruct (internal_command_result env_version req_version st_started eq_refl)
    as [H _].
  rewrite H. reflexivity.
Defined.

(** C6, as stated, fails: a success whose output is the empty string
    is not returned verbatim. *)
Lemma empty_output_is_replaced :
  http env_empty_output (trace (world st_started)) (echo_call req_version)
  = Resolved (Data.mk true None (Some "") [])
  /\ map (fun b => Res.output (Report.result b))
       (reports (trace (world (snd (executeCommand env_empty_output req_version
                                      st_started)))))
     = [Some "Command executed successfully"].
Proof. split; vm_compute; reflexivity. Qed.

End Lifecycle.

(** ** The poll loop *)

Section PollLoop.
Import Loop.
Local Open Scope list_scope.

Lemma nth_error_update_eq (k : nat) (r : Run) (rs : list Run) :
  k < length rs -> nth_error (update k r rs) k = Some r.
Proof.
  revert k. induction rs as [|x t IH]; intros [|k] H; simpl in *; try lia.
  - reflexivity.
  - apply IH. lia.
Qed.

Lemma nth_error_update_ne (j k : nat) (r : Run) (rs : list Run) :
  j <> k -> nth_error (update k r rs) j = nth_error rs j.
Proof.
  revert j k. induction rs as [|x t IH]; intros [|j] [|k] H; simpl; try reflexivity.
  - congruence.
  - apply IH. congruence.
Qed.

Lemma length_update (k : nat) (r : Run) (rs : list Run) :
  length (update k r rs) = length rs.
Proof.
  revert k. induction rs as [|x t IH]; intros [|k]; simpl; auto.
Qed.

Lemma log_of_app (k : nat) (l1 l2 : list Entry) :
  log_of k (l1 ++ l2) = log_of k l1 ++ log_of k l2.
Proof. apply filter_app. Qed.

Lemma log_of_same (k : nat) (es : list Entry) :
  Forall (fun e => tick_of e = k) es -> log_of k es = es.
Proof.
  induction 1 as [|e t He _ IH]; simpl; [reflexivity|].
  rewrite He, Nat.eqb_refl, IH. reflexivity.
Qed.

Lemma log_of_other (j k : nat) (es : list Entry) :
  j <> k -> Forall (fun e => tick_of e = k) es -> log_of j es = [].
Proof.
  intros Hn. induction 1 as [|e t He _ IH]; simpl; [reflexivity|].
  rewrite He. destruct (Nat.eqb_spec k j); [congruence|exact IH].
Qed.

Lemma log_of_fresh (n : nat) (l : list Entry) :
  (forall e, In e l -> tick_of e < n) -> log_of n l = [].
Proof.
  induction l as [|e t IH]; intros H; simpl; [reflexivity|].
  destruct (Nat.eqb_spec (tick_of e) n) as [E|_].
  - specialize (H e (or_introl eq_refl)). lia.
  - apply IH. intros x Hx. apply H. right. exact Hx.
Qed.

Lemma sequential_snoc (k : nat) (done : list Req.t) (c : Req.t) :
  sequential k (done ++ [c]) = sequential k done ++ whole k c.
Proof. unfold sequential. rewrite flat_map_app. reflexivity. Qed.

(** Resuming the run of tick [k]: the run is replaced and the entries
    written all belong to [k]. *)
Lemma loop_inv_resume (st : State) (k : nat) (r r' : Run) (es : list Entry) (a : bool) :
  loop_inv st ->
  nth_error (runs st) k = Some r ->
  Forall (fun e => tick_of e = k) es ->
  run_inv k r' (log_of k (log st) ++ es) ->
  loop_inv (mkState a (update k r' (runs st)) (log st ++ es)).
Proof.
  intros [Hruns Hlog] Hk Hes Hr'.
  assert (Hlt : k < length (runs st)) by (apply nth_error_Some; congruence).
  split; cbn [runs log].
  - intros j x Hj. rewrite log_of_app.
    destruct (Nat.eq_dec j k) as [->|Hne].
    + rewrite nth_error_update_eq in Hj by exact Hlt.
      injection Hj as <-. rewrite (log_of_same k es Hes). exact Hr'.
    + rewrite nth_error_update_ne in Hj by exact Hne.
      rewrite (log_of_other j k es Hne Hes), app_nil_r. apply Hruns, Hj.
  - intros e He. rewrite length_update. apply in_app_or in He as [He|He].
    + apply Hlog, He.
    + rewrite Forall_forall in Hes. rewrite (Hes e He). exact Hlt.
Qed.

Lemma loop_inv_next_command (a : bool) (rs : list Run) (lg es : list Entry)
    (k : nat) (r : Run) (f done rest : list Req.t) :
  loop_inv (mkState a rs lg) ->
  nth_error rs k = Some r ->
  f = done ++ rest ->
  Forall (fun e => tick_of e = k) es ->
  log_of k lg ++ es = sequential k done ->
  loop_inv (next_command k f rest (mkState a rs (lg ++ es))).
Proof.
  intros Hinv Hk Hf Hes Hl. unfold next_command. cbn [active runs log].
  destruct rest as [|c rest'].
  - apply (loop_inv_resume (mkState a rs lg) k r); auto.
    rewrite app_nil_r in Hf. unfold run_inv. cbn [status fetched log]. subst f. exact Hl.
  - rewrite <- app_assoc.
    apply (loop_inv_resume (mkState a rs lg) k r); auto.
    + apply Forall_app. split; [exact Hes|]. repeat constructor.
    + unfold run_inv. cbn [status fetched log]. exists done. rewrite app_assoc, Hl. auto.
Qed.

Lemma loop_inv_step (l : Label) (st st' : State) :
  loop_inv st -> step l st = Some st' -> loop_inv st'.
Proof.
  intros Hinv Hs. pose proof Hinv as [Hruns Hlog].
  destruct st as [a rs lg]. cbn [runs log active] in *.
  destruct l as [|k o|k|k|]; cbn [step runs log active] in Hs.
  - destruct a; injection Hs as <-; [|exact Hinv].
    split; cbn [runs log].
    + intros k r Hk.
      assert (Hle : k < length (rs ++ [mkRun [] AwaitFetch]))
        by (apply nth_error_Some; congruence).
      rewrite length_app in Hle. cbn in Hle.
      destruct (Nat.eq_dec k (length rs)) as [->|Hne].
      * rewrite nth_error_app2, Nat.sub_diag in Hk by lia.
        injection Hk as <-. rewrite (log_of_fresh _ _ Hlog).
        unfold run_inv. cbn. auto.
      * rewrite nth_error_app1 in Hk by lia. apply Hruns, Hk.
    + intros e He. rewrite length_app. specialize (Hlog e He). lia.
  - destruct (nth_error rs k) as [[f []]|] eqn:Hk; try discriminate.
    destruct (Hruns k _ Hk) as [Hf Hl]. cbn in Hf.
    assert (Hnext : forall cs,
               loop_inv (next_command k cs cs (mkState a rs lg))).
    { intros cs. rewrite <- (app_nil_r lg) at 1.
      apply (loop_inv_next_command a rs lg [] k (mkRun f AwaitFetch) cs [] cs); auto.
      rewrite Hl. reflexivity. }
    destruct o as [data|e]; [|injection Hs as <-; exact (Hnext [])].
    destruct (Data.success data && (0 <? length (Data.commands data))%nat);
      injection Hs as <-; [exact (Hnext (Data.commands data))|exact (Hnext [])].
  - destruct (nth_error rs k) as [[f [|c rest|c rest|]]|] eqn:Hk;
      try discriminate.
    injection Hs as <-. destruct (Hruns k _ Hk) as (done & Hf & Hl). cbn in Hf.
    apply (loop_inv_resume (mkState a rs lg) k (mkRun f (AwaitExec c rest))); auto.
    unfold run_inv. cbn [status fetched log]. exists done.
    rewrite Hl, <- app_assoc. auto.
  - destruct (nth_error rs k) as [[f [|c rest|c rest|]]|] eqn:Hk;
      try discriminate.
    injection Hs as <-. destruct (Hruns k _ Hk) as (done & Hf & Hl). cbn in Hf.
    apply (loop_inv_next_command a rs lg [Reported k c] k
             (mkRun f (AwaitReport c rest)) f (done ++ [c]) rest); auto.
    + rewrite Hf, <- app_assoc. reflexivity.
    + rewrite Hl, sequential_snoc, <- app_assoc. reflexivity.
  - injection Hs as <-. exact Hinv.
Qed.

Lemma loop_inv_init : loop_inv init.
Proof.
  split; cbn.
  - intros [|k] r H; discriminate.
  - intros e [].
Qed.

Lemma reachable_inv (st : State) : reachable st -> loop_inv st.
Proof.
  induction 1 as [|l st st' _ IH Hs]; [exact loop_inv_init|].
  exact (loop_inv_step l st st' IH Hs).
Qed.

Lemma exec_labels_reachable (ls : list Label) :
  forall st st', reachable st -> exec_labels ls st = Some st' -> reachable st'.
Proof.
  induction ls as [|l r IH]; intros st st' Hr H; simpl in H.
  - injection H as <-. exact Hr.
  - destruct (step l st) as [st1|] eqn:E; [|discriminate].
    apply (IH st1); [|exact H]. exact (reach_step l st st1 Hr E).
Qed.

(** A tick that the event loop resumes until its end takes every
    command it fetched. *)
Lemma drain_commands (rest : list Req.t) :
  forall (c : Req.t) (a : bool) (f : list Req.t) (lg : list Entry),
    exec_labels (flat_map (fun _ => [ExecDone 0; ReportDone 0]) (c :: rest))
                (mkState a [mkRun f (AwaitExec c rest)] lg)
    = Some (mkState a [mkRun f Finished]
              (lg ++ [Completed 0 c; Reported 0 c] ++ sequential 0 rest)).
Proof.
  induction rest as [|c' rest' IH]; intros c a f lg.
  - cbn. rewrite <- app_assoc. reflexivity.
  - change (flat_map (fun _ => [ExecDone 0; ReportDone 0]) (c :: c' :: rest'))
      with (ExecDone 0 :: ReportDone 0
              :: flat_map (fun _ => [ExecDone 0; ReportDone 0]) (c' :: rest')).
    cbn [exec_labels step runs nth_error log active next_command update].
    rewrite IH. f_equal. f_equal.
    rewrite <- !app_assoc. reflexivity.
Qed.

Lemma tick_runs_to_completion (cs : list Req.t) :
  exec_labels
    (Fire :: FetchDone 0 (pending cs)
       :: flat_map (fun _ => [ExecDone 0; ReportDone 0]) cs) init
  = Some (mkState true [mkRun cs Finished] (sequential 0 cs)).
Proof.
  destruct cs as [|c rest]; [reflexivity|].
  cbn [exec_labels step init active runs log app nth_error pending
       Data.success Data.commands andb length Nat.ltb Nat.leb next_command update].
  apply drain_commands.
Qed.

Lemma run_inv_prefix (k : nat) (r : Run) (l : list Entry) :
  run_inv k r l -> prefix_of l (sequential k (fetched r)).
Proof.
  unfold run_inv, prefix_of.
  destruct (status r) as [|c rest|c rest|].
  - intros [_ ->]. eexists. reflexivity.
  - intros (done & -> & ->). exists ([Completed k c; Reported k c] ++ sequential k rest).
    unfold sequential. rewrite flat_map_app, <- app_assoc. reflexivity.
  - intros (done & -> & ->). exists ([Reported k c] ++ sequential k rest).
    unfold sequential. rewrite flat_map_app, <- app_assoc. reflexivity.
  - intros ->. exists []. rewrite app_nil_r. reflexivity.
Qed.

(** C2 (amended): within one poll tick the commands execute strictly
    in sequence, in the order received: in every reachable state the
    log of a tick is an initial segment of dispatch, completion and
    report of its first command, then of its second, and so on; for a
    tick that returned [A, B], B is dispatched only after A has
    completed and been reported.  Runs of different ticks are not
    ordered against each other. *)
Theorem tick_commands_sequential (st : State) (k : nat) (r : Run) :
  reachable st ->
  nth_error (runs st) k = Some r ->
  prefix_of (log_of k (log st)) (sequential k (fetched r))
  /\ (forall A B, fetched r = [A; B] ->
        prefix_of (log_of k (log st))
          [Dispatched k A; Completed k A; Reported k A;
           Dispatched k B; Completed k B; Reported k B]).
Proof.
  intros Hr Hk.
  pose proof (run_inv_prefix k r _ (proj1 (reachable_inv st Hr) k r Hk)) as Hp.
  split; [exact Hp|].
  intros A B HAB. rewrite HAB in Hp. exact Hp.
Qed.

Lemma tick_commands_sequential_second_command :
  prefix_of (log_of 0 (log st_second_command))
    [Dispatched 0 req_sleep; Completed 0 req_sleep; Reported 0 req_sleep;
     Dispatched 0 req_ls; Completed 0 req_ls; Reported 0 req_ls].
Proof.
  refine (proj2 (tick_commands_sequential st_second_command 0
                   (mkRun [req_sleep; req_ls] (AwaitExec req_ls [])) _ eq_refl)
                req_sleep req_ls eq_refl).
  apply (exec_labels_reachable
           [Fire; FetchDone 0 (pending [req_sleep; req_ls]); ExecDone 0; ReportDone 0]
           init); [exact reach_init|reflexivity].
Defined.

(** C2, as stated, fails: when the command of one tick is still being
    executed at the next firing of the timer, the next tick fetches and
    dispatches its own command, and two executions overlap. *)
Lemma two_ticks_execute_at_once :
  reachable st_overlap
  /\ executing st_overlap = 2
  /\ log st_overlap = [Dispatched 0 req_sleep; Dispatched 1 req_ls].
Proof.
  split; [|split; reflexivity].
  apply (exec_labels_reachable
           [Fire; FetchDone 0 (pending [req_sleep]); Fire; FetchDone 1 (pending [req_ls])]
           init); [exact reach_init|reflexivity].
Qed.

End PollLoop.

(** ** More on the command translator *)

Section TranslatorMore.

(** The first piece of a split keeps what was read before it. *)
Lemma split_from_first (s : string) :
  forall (c : ascii) (p : string),
    exists tail rest, Js.split_from (String c p) false s = String c tail :: rest.
Proof.
  induction s as [|a r IH]; intros c p.
  - exists p, []. reflexivity.
  - simpl. destruct (Js.is_ws a).
    + exists p, (Js.split_from "" true r). reflexivity.
    + apply IH.
Qed.

Lemma startsWith_cons (c : ascii) (tail : string) :
  Js.startsWith (String c tail) (String c "") = true.
Proof.
  unfold Js.startsWith. simpl.
  destruct (ascii_dec c c); [|congruence]. destruct tail; reflexivity.
Qed.

Lemma startsWith_sigil (s : string) :
  Js.startsWith s ":" = true -> exists r, s = String ":" r.
Proof.
  destruct s as [|c r]; [discriminate|].
  unfold Js.startsWith. cbn [prefix].
  destruct (ascii_dec ":" c) as [<-|]; [eauto|discriminate].
Qed.

Ltac split_ifs :=
  repeat match goal with
         | |- context [if ?b then _ else _] => destruct b eqn:?
         end.

Lemma dashboardCommand_sigil (command : string) :
  Js.startsWith (dashboardCommand (parseCliCommand command)) ":" = true.
Proof.
  unfold parseCliCommand.
  destruct (parts_of command) as [|mainCommand rest] eqn:Hp; [reflexivity|].
  cbv zeta.
  destruct (Js.startsWith command ":") eqn:Hs.
  - destruct (startsWith_sigil _ Hs) as [r0 ->].
    assert (Hw : Js.is_ws ":" = false) by reflexivity.
    unfold Js.split_ws. cbn [Js.split_from append]. rewrite Hw.
    destruct (split_from_first r0 ":" "") as (f & t & ->).
    split_ifs; try reflexivity. apply startsWith_cons.
  - split_ifs; try reflexivity. apply (startsWith_cons ":").
Qed.

(** X1: for every input the canonical command that the translator
    returns begins with the sigil [:]. *)
Theorem dashboardCommand_has_sigil (command : string) :
  Js.startsWith (dashboardCommand (parseCliCommand command)) ":" = true.
Proof. exact (dashboardCommand_sigil command). Qed.

(** X2: when the text carries no sigil and its main verb has no case
    in the translator, the canonical command is the sigil followed by
    the main verb as written, and the arguments are all the remaining
    tokens, unchanged and in order. *)
Theorem unknown_verb_passes_tokens
    (command mainCommand : string) (rest : list string) :
  parts_of command = mainCommand :: rest ->
  Js.startsWith command ":" = false ->
  recognised mainCommand = false ->
  parseCliCommand command = mkParsed (":" ++ mainCommand) rest.
Proof.
  intros Hp Hs Hr.
  pose proof (filter_Boolean_sub_and_args rest (parts_of_tail _ _ _ Hp)) as Hf.
  unfold parseCliCommand. rewrite Hp. cbv zeta. rewrite Hs, Hf.
  unfold recognised in Hr. cbn [existsb verbs] in Hr.
  repeat (apply orb_false_elim in Hr; destruct Hr as [?E Hr]).
  rewrite E, E0, E1, E2, E3, E4, E5, E6, E7, E8, E9, E10, E11.
  reflexivity.
Qed.

Lemma unknown_verb_passes_tokens_witness :
  parseCliCommand "foo bar baz" = mkParsed ":foo" ["bar"; "baz"].
Proof.
  exact (unknown_verb_passes_tokens "foo bar baz" "foo" ["bar"; "baz"]
           eq_refl eq_refl eq_refl).
Defined.

(** X3: for a main verb that the translator has a case for, a sigil in
    front of the text changes nothing: [:c] and [c] translate alike. *)
Theorem leading_sigil_is_transparent
    (c mainCommand : string) (rest : list string) :
  Js.startsWith c ":" = false ->
  parts_of c = mainCommand :: rest ->
  recognised mainCommand = true ->
  parseCliCommand (":" ++ c) = parseCliCommand c.
Proof.
  intros Hs Hp Hr.
  assert (Hp' : parts_of (":" ++ c) = mainCommand :: rest).
  { rewrite <- Hp. unfold parts_of. rewrite Hs.
    change (":" ++ c) with (String ":" c).
    rewrite (startsWith_cons ":" c). reflexivity. }
  unfold parseCliCommand. rewrite Hp', Hp. cbv zeta.
  unfold recognised in Hr. cbn [existsb verbs] in Hr.
  split_ifs; try reflexivity; exfalso; cbn in Hr;
    repeat match goal with
           | H : (_ || _) = false |- _ => apply orb_false_elim in H; destruct H
           end;
    repeat match goal with
           | H : (_ =? _) = false |- _ => rewrite H in Hr; clear H
           end;
    discriminate.
Qed.

Lemma leading_sigil_is_transparent_witness :
  parseCliCommand ":Task done 42" = parseCliCommand "Task done 42".
Proof.
  exact (leading_sigil_is_transparent "Task done 42" "Task" ["done"; "42"]
           eq_refl eq_refl eq_refl).
Defined.

Lemma split_from_trailing (s : string) :
  forall piece in_ws,
    ends_ws s = true -> exists l, Js.split_from piece in_ws s = (l ++ [""])%list.
Proof.
  induction s as [|c r IH]; intros piece in_ws E; [discriminate|].
  cbn [Js.split_from]. destruct r as [|c' r'].
  - cbn [ends_ws] in E. rewrite E. cbn [Js.split_from].
    destruct in_ws; [exists []|exists [piece]]; reflexivity.
  - change (ends_ws (String c (String c' r'))) with (ends_ws (String c' r')) in E.
    destruct (Js.is_ws c); [destruct in_ws|].
    + apply IH, E.
    + destruct (IH "" true E) as [l ->]. exists (piece :: l). reflexivity.
    + apply IH, E.
Qed.

(** X24: a text that carries the sigil and whose main verb has no case
    in the translator is passed through: the canonical command is its
    first white-space separated token and the arguments are the tokens
    that follow.  The text is split as it stands, without trimming, so
    when it ends in white space the last argument is the empty
    string. *)
Theorem sigil_text_passes_through
    (command mainCommand : string) (rest : list string) :
  parts_of command = mainCommand :: rest ->
  Js.startsWith command ":" = true ->
  recognised mainCommand = false ->
  exists cmd cmdArgs,
    Js.split_ws command = cmd :: cmdArgs
    /\ parseCliCommand command = mkParsed cmd cmdArgs
    /\ (ends_ws command = true -> exists l, cmdArgs = (l ++ [""])%list).
Proof.
  intros Hp Hs Hr.
  destruct (startsWith_sigil _ Hs) as [r0 Hc].
  destruct (split_from_first r0 ":" "") as (tail & cmdArgs & Hsplit).
  assert (Hw : Js.split_ws command = String ":" tail :: cmdArgs).
  { rewrite Hc. unfold Js.split_ws. cbn [Js.split_from append].
    change (Js.is_ws ":") with false. cbv iota. exact Hsplit. }
  exists (String ":" tail), cmdArgs. split; [exact Hw|]. split.
  - unfold parseCliCommand. rewrite Hp. cbv zeta. rewrite Hs, Hw.
    unfold recognised in Hr. cbn [existsb verbs] in Hr.
    repeat (apply orb_false_elim in Hr; destruct Hr as [?E Hr]).
    rewrite E, E0, E1, E2, E3, E4, E5, E6, E7, E8, E9, E10, E11.
    reflexivity.
  - intros He. destruct (split_from_trailing command "" false He) as [l Hl].
    unfold Js.split_ws in Hw. rewrite Hw in Hl.
    destruct l as [|x l']; [discriminate|].
    injection Hl as _ ->. exists l'. reflexivity.
Qed.

Lemma sigil_text_passes_through_witness :
  parseCliCommand ":deploy now " = mkParsed ":deploy" ["now"; ""].
Proof.
  destruct (sigil_text_passes_through ":deploy now " "deploy" ["now"]
              eq_refl eq_refl eq_refl)
    as (cmd & cmdArgs & Hw & Hparse & _).
  rewrite Hparse. injection Hw as <- <-. reflexivity.
Defined.

End TranslatorMore.

(** ** The format of the command identifier *)

Section CommandIdFormat.

Lemma length_append (a b : string) :
  String.length (a ++ b) = String.length a + String.length b.
Proof. induction a as [|c r IH]; simpl; [reflexivity|]. rewrite IH. reflexivity. Qed.

Lemma forallb_append (p : ascii -> bool) (a b : string) :
  string_forallb p (a ++ b) = string_forallb p a && string_forallb p b.
Proof.
  induction a as [|c r IH]; simpl; [reflexivity|].
  rewrite IH, andb_assoc. reflexivity.
Qed.

Lemma length_substring (s : string) :
  forall n, n <= String.length s -> String.length (substring 0 n s) = n.
Proof.
  induction s as [|c r IH]; intros [|n] H; simpl in *; try lia.
  rewrite IH by lia. reflexivity.
Qed.

Lemma forallb_substring (p : ascii -> bool) (s : string) :
  forall n m, string_forallb p s = true -> string_forallb p (substring n m s) = true.
Proof.
  induction s as [|c r IH]; intros n m H; [destruct n, m; reflexivity|].
  simpl in H. apply andb_prop in H as [Hc Hr].
  destruct n as [|n]; [destruct m as [|m]|]; simpl; auto.
  rewrite Hc. simpl. apply IH, Hr.
Qed.

Lemma hex_digit_is_hex (d : N) :
  (d < 16)%N -> is_hex (Sha256.hex_digit d) = true.
Proof.
  intros H. destruct d as [|p]; [reflexivity|].
  do 4 (destruct p as [p|p|]; try reflexivity); exfalso; lia.
Qed.

Lemma hex_nibbles_format (n : nat) (x : N) :
  String.length (Sha256.hex_nibbles n x) = n
  /\ string_forallb is_hex (Sha256.hex_nibbles n x) = true.
Proof.
  induction n as [|n [IH1 IH2]]; [split; reflexivity|].
  cbn [Sha256.hex_nibbles String.length string_forallb].
  rewrite IH1, IH2, hex_digit_is_hex; [split; reflexivity|].
  change 15%N with (N.ones 4). rewrite N.land_ones.
  apply N.mod_lt. discriminate.
Qed.

Lemma concat_hex_format (ws : list N) :
  String.length (String.concat "" (map (Sha256.hex_nibbles 8) ws)) = 8 * length ws
  /\ string_forallb is_hex (String.concat "" (map (Sha256.hex_nibbles 8) ws)) = true.
Proof.
  induction ws as [|w t [IH1 IH2]]; [split; reflexivity|].
  destruct (hex_nibbles_format 8 w) as [H1 H2].
  destruct t as [|w' t'].
  - cbn [map String.concat length]. split; [rewrite H1; reflexivity|exact H2].
  - change (String.concat "" (map (Sha256.hex_nibbles 8) (w :: w' :: t')))
      with (Sha256.hex_nibbles 8 w
              ++ String.concat "" (map (Sha256.hex_nibbles 8) (w' :: t'))).
    rewrite length_append, forallb_append, H1, H2, IH1, IH2.
    cbn [length]. split; [lia|reflexivity].
Qed.

Lemma length_blocks (n : nat) :
  forall h bytes, length h = 8 -> length (Sha256.blocks n h bytes) = 8.
Proof.
  induction n as [|n IH]; intros h bytes H; [exact H|].
  cbn [Sha256.blocks]. apply IH. reflexivity.
Qed.

(** A digest in hexadecimal has 64 digits. *)
Lemma hex_format (s : string) :
  String.length (Sha256.hex s) = 64
  /\ string_forallb is_hex (Sha256.hex s) = true.
Proof.
  unfold Sha256.hex.
  destruct (concat_hex_format (Sha256.digest (Sha256.utf8 s))) as [H1 H2].
  split; [|exact H2]. rewrite H1. unfold Sha256.digest.
  rewrite length_blocks; reflexivity.
Qed.

Lemma reports_app (l1 l2 : list Event) :
  reports (l1 ++ l2) = (reports l1 ++ reports l2)%list.
Proof.
  induction l1 as [|[u a []|] t IH]; cbn [reports app]; try rewrite IH; reflexivity.
Qed.

(** X4: the [commandId] of every report is exactly 16 lower-case
    hexadecimal digits, whatever the session, the command text and the
    time are. *)
Theorem commandId_is_16_hex_digits
    (env : Env) (req : Req.t) (result error : option string)
    (executionTime : Z) (s : St) :
  exists body,
    reports (trace (world (snd (reportCommandResult env req result error
                                  executionTime s))))
    = (reports (trace (world s)) ++ [body])%list
    /\ Res.commandId (Report.result body) = Report.commandId body
    /\ String.length (Report.commandId body) = 16
    /\ string_forallb is_hex (Report.commandId body) = true.
Proof.
  rewrite reportCommandResult_run. eexists. cbn [snd after world trace record].
  split; [rewrite reports_app; reflexivity|].
  split; [reflexivity|].
  cbn [Report.commandId]. unfold digest_id.
    destruct (hex_format (sessionId (this s) ++ "-" ++ Req.command req ++ "-"
                            ++ Js.show_Z (now (world s)))) as [H1 H2].
  split; [apply length_substring; rewrite H1; lia|].
  apply forallb_substring, H2.
Qed.

End CommandIdFormat.

(** ** More on the local executor *)

Section ExecutorMore.

Lemma executeCommand_effect (env : Env) (req : Req.t) (s : St) :
  exists body s',
    executeCommand env req s = (inl tt, s')
    /\ this s' = set_commandCount (commandCount (this s) + 1) (this s)
    /\ trace (world s')
       = (trace (world s)
            ++ [executor_event (this s) req; request (this s) (PutRemoteCli body)])%list
    /\ timers (world s') = timers (world s)
    /\ next_timer (world s') = next_timer (world s).
Proof.
  rewrite executeCommand_run. cbv zeta. unfold executor, executor_event.
  destruct (Js.startsWith (Req.command req) ":");
    [rewrite executeEchoCommand_run|rewrite executeSystemCommand_run];
    cbn [fst snd after counted this world trace timers next_timer record];
    eexists; eexists; (split; [reflexivity|]);
    unfold after, counted, request, record;
    cbn [this world trace timers next_timer apiUrl authToken set_commandCount];
    rewrite <- app_assoc; repeat split; reflexivity.
Qed.

(** X5: every execution of a command request makes exactly one call
    to its executor (the forwarding POST for a text that begins with
    the sigil, the shell otherwise), then exactly one report, adds one
    to the command counter and changes nothing else of the handler or
    of the timers; it never throws. *)
Theorem executeCommand_one_call_one_report (env : Env) (req : Req.t) (s : St) :
  exists body s',
    executeCommand env req s = (inl tt, s')
    /\ this s' = set_commandCount (commandCount (this s) + 1) (this s)
    /\ trace (world s')
       = (trace (world s)
            ++ [executor_event (this s) req; request (this s) (PutRemoteCli body)])%list
    /\ timers (world s') = timers (world s).
Proof.
  destruct (executeCommand_effect env req s) as (body & s' & H1 & H2 & H3 & H4 & _).
  exists body, s'. auto.
Qed.

(** X6: what a request does depends only on its command text, its
    arguments, its working directory and its timeout: the fields [id],
    [type], [userId], [sessionId] and [createdAt] are never consulted. *)
Theorem executeCommand_ignores_metadata (env : Env) (r1 r2 : Req.t) (s : St) :
  Req.command r1 = Req.command r2 ->
  Req.args r1 = Req.args r2 ->
  Req.workingDirectory r1 = Req.workingDirectory r2 ->
  Req.timeout r1 = Req.timeout r2 ->
  executeCommand env r1 s = executeCommand env r2 s.
Proof.
  intros Hc Ha Hw Ht. rewrite !executeCommand_run. cbv zeta.
  unfold executor. rewrite Hc.
  destruct (Js.startsWith (Req.command r2) ":").
  - rewrite !executeEchoCommand_run. unfold echo_call. rewrite Hc. reflexivity.
  - rewrite !executeSystemCommand_run. unfold system_call.
    rewrite Hc, Ha, Hw, Ht. reflexivity.
Qed.

Lemma executeCommand_ignores_metadata_witness :
  executeCommand env_ok req_ls st_started
  = executeCommand env_ok
      (Req.mk "another-id" "ls" (Some ["-la"]) None None EchoCli "u2" "s2" "never")
      st_started.
Proof.
  exact (executeCommand_ignores_metadata env_ok req_ls
           (Req.mk "another-id" "ls" (Some ["-la"]) None None EchoCli "u2" "s2" "never")
           st_started eq_refl eq_refl eq_refl eq_refl).
Defined.

(** X7: for an internal command (a text that begins with the sigil)
    only the command text counts: the [args], [workingDirectory] and
    [timeout] of the request are not forwarded and change nothing. *)
Theorem internal_command_ignores_request_args (env : Env) (r1 r2 : Req.t) (s : St) :
  Js.startsWith (Req.command r1) ":" = true ->
  Req.command r1 = Req.command r2 ->
  executeCommand env r1 s = executeCommand env r2 s.
Proof.
  intros Hs Hc. rewrite !executeCommand_run. cbv zeta.
  unfold executor. rewrite <- Hc, Hs.
  rewrite !executeEchoCommand_run. unfold echo_call. rewrite Hc. reflexivity.
Qed.

Lemma internal_command_ignores_request_args_witness :
  executeCommand env_version req_version st_started
  = executeCommand env_version
      (Req.mk "cmd-3" ":version" (Some ["--json"]) (Some "/tmp") (Some 5%Z)
         EchoCli "u1" "3f2b8c1e-9d47-4a6b-8c2d-5e1f0a7b9c34"
         "2023-11-14T22:13:20.000Z")
      st_started.
Proof.
  exact (internal_command_ignores_request_args env_version req_version _
           st_started eq_refl eq_refl).
Defined.

Lemma append_assoc (a b c : string) : (a ++ b) ++ c = a ++ (b ++ c).
Proof. induction a as [|x r IH]; simpl; [reflexivity|]. rewrite IH. reflexivity. Qed.

Lemma join_space_merges (x y : string) (rest : list string) :
  Js.join " " ((x ++ " " ++ y) :: rest) = Js.join " " (x :: y :: rest).
Proof.
  destruct rest as [|z t]; cbn [Js.join]; [reflexivity|].
  rewrite !append_assoc. reflexivity.
Qed.

(** X8: the arguments of a system command are joined by single spaces
    without quoting, so an argument that contains a space is run as
    two arguments: the request with the argument [x y] and the request
    with the arguments [x] and [y] behave alike. *)
Theorem system_command_args_are_not_quoted
    (env : Env) (s : St) (id command x y : string) (rest : list string)
    (workingDirectory : option string) (timeout : option Z) (type : CommandType)
    (userId sessionId createdAt : string) :
  executeCommand env
    (Req.mk id command (Some ((x ++ " " ++ y) :: rest)) workingDirectory timeout
       type userId sessionId createdAt) s
  = executeCommand env
      (Req.mk id command (Some (x :: y :: rest)) workingDirectory timeout
         type userId sessionId createdAt) s.
Proof.
  rewrite !executeCommand_run. cbv zeta. unfold executor. cbn [Req.command].
  destruct (Js.startsWith command ":").
  - rewrite !executeEchoCommand_run. reflexivity.
  - rewrite !executeSystemCommand_run. unfold system_call.
    cbn [Req.command Req.args Req.timeout Req.workingDirectory length Nat.ltb Nat.leb].
    rewrite join_space_merges. reflexivity.
Qed.

End ExecutorMore.

(** ** The command poller and the heartbeat *)

Section Poller.
Local Open Scope Z_scope.

Lemma batch_events_endpoint (h h' : Handler) (cs : list Req.t) :
  apiUrl h = apiUrl h' -> authToken h = authToken h' ->
  forall bodies, batch_events h cs bodies = batch_events h' cs bodies.
Proof.
  intros Hu Ha.
  induction cs as [|c t IH]; intros [|b bs]; cbn [batch_events]; try reflexivity.
  rewrite IH. unfold executor_event, request. rewrite Hu, Ha. reflexivity.
Qed.

Lemma batch_events_counted (n : Z) (h : Handler) (cs : list Req.t) :
  forall bodies,
    batch_events (set_commandCount n h) cs bodies = batch_events h cs bodies.
Proof. apply batch_events_endpoint; reflexivity. Qed.

Ltac handler_fields :=
  unfold set_commandCount, set_lastCommandCheck, set_lastHeartbeat, set_isActive,
    set_pollInterval, set_heartbeatInterval, set_startTime;
  cbn [commandCount apiUrl authToken sessionId isActive pollInterval
       heartbeatInterval capabilities version platform startTime lastHeartbeat
       lastCommandCheck].

Lemma set_commandCount_same (h : Handler) :
  set_commandCount (commandCount h + 0) h = h.
Proof. destruct h. handler_fields. f_equal. lia. Qed.

Lemma set_commandCount_twice (n : Z) (h : Handler) :
  set_commandCount (commandCount (set_commandCount (commandCount h + 1) h) + n)
    (set_commandCount (commandCount h + 1) h)
  = set_commandCount (commandCount h + (1 + n)) h.
Proof. destruct h. handler_fields. f_equal. lia. Qed.

(** The loop of [checkForCommands] over the commands of one answer. *)
Lemma for_of_executeCommand (env : Env) (cs : list Req.t) :
  forall s,
    exists bodies s',
      length bodies = length cs
      /\ for_of cs (executeCommand env) s = (inl tt, s')
      /\ this s'
         = set_commandCount (commandCount (this s) + Z.of_nat (length cs)) (this s)
      /\ trace (world s') = (trace (world s) ++ batch_events (this s) cs bodies)%list
      /\ timers (world s') = timers (world s)
      /\ next_timer (world s') = next_timer (world s).
Proof.
  induction cs as [|c t IH]; intros s.
  - exists [], s. cbn [for_of length batch_events Z.of_nat].
    rewrite set_commandCount_same, app_nil_r. repeat split; reflexivity.
  - destruct (executeCommand_effect env c s) as (b & s1 & H1 & H2 & H3 & H4 & H5).
    destruct (IH s1) as (bs & s2 & L & R & T & E & Ti & Nx).
    exists (b :: bs), s2. cbn [for_of length batch_events].
    unfold bind. rewrite H1, R.
    rewrite T, E, H2, H3, batch_events_counted, Ti, Nx, H4, H5, L.
    rewrite set_commandCount_twice, <- app_assoc, Nat2Z.inj_succ.
    replace (Z.succ (Z.of_nat (length t))) with (1 + Z.of_nat (length t)) by lia.
    repeat split; reflexivity.
Qed.

Lemma checkForCommands_success (env : Env) (s : St) (data : Data.t) :
  let h := this s in
  let get := GetPending (sessionId h) in
  http env (trace (world s)) get = Resolved data ->
  Data.success data = true ->
  exists bodies s',
    length bodies = length (Data.commands data)
    /\ checkForCommands env s = (inl tt, s')
    /\ trace (world s')
       = (trace (world s)
            ++ request h get :: batch_events h (Data.commands data) bodies)%list
    /\ commandCount (this s')
       = commandCount h + Z.of_nat (length (Data.commands data))
    /\ lastCommandCheck (this s') = Some (now (world s))
    /\ isActive (this s') = isActive h.
Proof.
  intros h get Hget Hs. subst h get.
  destruct s as [h w]. cbn [this world] in *.
  unfold checkForCommands, try_catch, bind, Date_now, set_this, get_this, axios,
    console_log, ret.
  cbn [this world sessionId apiUrl authToken set_lastCommandCheck fst snd].
  rewrite Hget, Hs. cbn [andb].
  destruct (Data.commands data) as [|c t] eqn:Hc.
  - exists [], (mkSt (set_lastCommandCheck (Some (now w)) h)
                  (record (request h (GetPending (sessionId h)))
                     (delay env (trace w) (request h (GetPending (sessionId h)))) w)).
    cbn. rewrite Z.add_0_r. repeat split; reflexivity.
  - change (0 <? length (c :: t))%nat with true. cbv beta iota.
    match goal with
    | |- context [for_of (c :: t) (executeCommand env) ?s0] =>
        destruct (for_of_executeCommand env (c :: t) s0)
          as (bs & s2 & L & R & T & E & _)
    end.
    exists bs, s2. rewrite R, T, E.
    cbn [this world trace record]. rewrite <- app_assoc.
    repeat split; try reflexivity; [exact L|].
    rewrite (batch_events_endpoint (set_lastCommandCheck (Some (now w)) h) h)
      by reflexivity.
    reflexivity.
Qed.

(** X9: when the backend answers the poll with success, the tick
    never throws, and after the one GET it takes the commands in the
    order received: for each one its executor call and then its report,
    before the next; the command counter grows by the number of
    commands, and the time of the check is the time before the GET. *)
Theorem checkForCommands_runs_batch_in_order (env : Env) (s : St) (data : Data.t) :
  let h := this s in
  let get := GetPending (sessionId h) in
  http env (trace (world s)) get = Resolved data ->
  Data.success data = true ->
  exists bodies s',
    length bodies = length (Data.commands data)
    /\ checkForCommands env s = (inl tt, s')
    /\ trace (world s')
       = (trace (world s)
            ++ request h get :: batch_events h (Data.commands data) bodies)%list
    /\ commandCount (this s')
       = commandCount h + Z.of_nat (length (Data.commands data))
    /\ lastCommandCheck (this s') = Some (now (world s))
    /\ isActive (this s') = isActive h.
Proof. exact (checkForCommands_success env s data). Qed.

Lemma checkForCommands_runs_batch_in_order_witness :
  exists (bodies : list Report.t) s',
    checkForCommands
      (mkEnv (fun _ c => match c with
                         | GetPending _ => pending [req_sleep; req_ls]
                         | _ => Resolved ok_data
                         end)
             (fun _ _ => mkExec None "" "") (fun _ _ => 7))
      st_started
    = (inl tt, s')
    /\ length bodies = 2%nat.
Proof.
  destruct (checkForCommands_runs_batch_in_order
              (mkEnv (fun _ c => match c with
                                 | GetPending _ => pending [req_sleep; req_ls]
                                 | _ => Resolved ok_data
                                 end)
                     (fun _ _ => mkExec None "" "") (fun _ _ => 7))
              st_started (Data.mk true None None [req_sleep; req_ls])
              eq_refl eq_refl)
    as (bodies & s' & L & R & _).
  exists bodies, s'. split; [exact R|exact L].
Defined.

Lemma checkForCommands_idle (env : Env) (s : St) :
  (forall data,
     http env (trace (world s)) (GetPending (sessionId (this s))) = Resolved data ->
     Data.success data = false \/ Data.commands data = []) ->
  checkForCommands env s
  = (inl tt,
     after env (request (this s) (GetPending (sessionId (this s))))
       (mkSt (set_lastCommandCheck (Some (now (world s))) (this s)) (world s))).
Proof.
  intros H. destruct s as [h w]. cbn [this world] in *.
  unfold checkForCommands, try_catch, bind, Date_now, set_this, get_this, axios,
    console_log, ret, after, request.
  cbn [this world sessionId apiUrl authToken set_lastCommandCheck fst snd].
  destruct (http env (trace w) (GetPending (sessionId h))) as [data|e];
    [|reflexivity].
  destruct (H data eq_refl) as [-> | ->]; [reflexivity|].
  rewrite andb_false_r. reflexivity.
Qed.

(** X10: a poll whose GET fails, or whose answer has [success: false],
    or lists no command, makes that one request and nothing else: no
    command is executed (not even those listed beside
    [success: false]), the counter stays, and nothing is thrown. *)
Theorem checkForCommands_executes_nothing (env : Env) (s : St) :
  (forall data,
     http env (trace (world s)) (GetPending (sessionId (this s))) = Resolved data ->
     Data.success data = false \/ Data.commands data = []) ->
  checkForCommands env s
  = (inl tt,
     after env (request (this s) (GetPending (sessionId (this s))))
       (mkSt (set_lastCommandCheck (Some (now (world s))) (this s)) (world s))).
Proof. exact (checkForCommands_idle env s). Qed.

Lemma checkForCommands_executes_nothing_witness :
  trace (world (snd (checkForCommands
                       (mkEnv (fun _ _ => Resolved (Data.mk false None None [req_ls]))
                              (fun _ _ => mkExec None "" "") (fun _ _ => 7))
                       st_started)))
  = (trace (world st_started)
       ++ [request (this st_started) (GetPending (sessionId (this st_started)))])%list.
Proof.
  rewrite (checkForCommands_executes_nothing
             (mkEnv (fun _ _ => Resolved (Data.mk false None None [req_ls]))
                    (fun _ _ => mkExec None "" "") (fun _ _ => 7))
             st_started).
  - reflexivity.
  - intros data H. injection H as <-. left. reflexivity.
Defined.

Lemma checkForCommands_returns (env : Env) (s : St) :
  fst (checkForCommands env s) = inl tt.
Proof.
  destruct (http env (trace (world s)) (GetPending (sessionId (this s))))
    as [data|e] eqn:E.
  - destruct (Data.success data) eqn:Hs.
    + destruct (checkForCommands_success env s data E Hs) as (bs & s' & _ & -> & _).
      reflexivity.
    + rewrite checkForCommands_idle; [reflexivity|].
      intros d Hd. rewrite E in Hd. injection Hd as <-. auto.
  - rewrite checkForCommands_idle; [reflexivity|].
    intros d Hd. rewrite E in Hd. discriminate.
Qed.

(** X11: the poll callback never throws; while the listener is not
    active it does nothing at all (no request, no change of state), and
    while it is active it is one run of [checkForCommands]. *)
Theorem poll_tick_guarded (env : Env) (s : St) :
  fst (poll_tick env s) = inl tt
  /\ (isActive (this s) = false -> poll_tick env s = (inl tt, s))
  /\ (isActive (this s) = true -> poll_tick env s = checkForCommands env s).
Proof.
  pose proof (checkForCommands_returns env s) as Hr.
  unfold poll_tick, bind, get_this, try_catch, ret.
  destruct (isActive (this s)); cbn [negb];
    destruct (checkForCommands env s) as [[[]|e] s'];
    cbn [fst] in *; repeat split; try reflexivity; try discriminate.
Qed.

Lemma poll_tick_guarded_witness :
  poll_tick env_ok st_created = (inl tt, st_created).
Proof.
  exact (proj1 (proj2 (poll_tick_guarded env_ok st_created)) eq_refl).
Defined.

(** X12: the heartbeat callback never throws.  While the listener is
    not active it does nothing.  While it is active it sends one PUT
    with the session identifier; [lastHeartbeat] becomes the time at
    which an answer arrived, whatever the answer says (its [success]
    flag is not read), and stays as it was when the request failed.
    The listener stays active either way. *)
Theorem heartbeat_tick_effect (env : Env) (s : St) :
  let h := this s in
  let put := PutCliSession (sessionId h) in
  let s1 := after env (request h put) s in
  fst (heartbeat_tick env s) = inl tt
  /\ (isActive h = false -> heartbeat_tick env s = (inl tt, s))
  /\ (forall data,
        isActive h = true ->
        http env (trace (world s)) put = Resolved data ->
        heartbeat_tick env s
        = (inl tt, mkSt (set_lastHeartbeat (Some (now (world s1))) h) (world s1)))
  /\ (forall e,
        isActive h = true ->
        http env (trace (world s)) put = Rejected e ->
        heartbeat_tick env s = (inl tt, s1)).
Proof.
  cbv zeta. destruct s as [h w]. cbn [this world].
  unfold heartbeat_tick, bind, get_this, try_catch, ret, axios, Date_now,
    set_this, console_log, after, request.
  cbn -[Z.add].
  destruct (isActive h); cbn -[Z.add];
    destruct (http env (trace w) (PutCliSession (sessionId h))) as [d|e];
    repeat split; try reflexivity; try discriminate;
    intros; try discriminate; reflexivity.
Qed.

Lemma heartbeat_tick_effect_witness :
  lastHeartbeat
    (this (snd (heartbeat_tick
                  (mkEnv (fun _ _ => Resolved (Data.mk false None None []))
                         (fun _ _ => mkExec None "" "") (fun _ _ => 7))
                  st_started)))
  = Some 1700000000014.
Proof.
  pose proof (heartbeat_tick_effect
                (mkEnv (fun _ _ => Resolved (Data.mk false None None []))
                       (fun _ _ => mkExec None "" "") (fun _ _ => 7))
                st_started) as H.
  cbv zeta in H. destruct H as (_ & _ & H & _).
  rewrite (H _ eq_refl eq_refl). reflexivity.
Defined.

End Poller.

(** ** More on the session lifecycle *)

Section LifecycleMore.

Lemma start_success (env : Env) (s : St) (data : Data.t) :
  http env (trace (world s)) (register_call (this s)) = Resolved data ->
  Data.success data = true ->
  start env s
  = (inl tt,
     let w1 := world (after env (request (this s) (register_call (this s))) s) in
     let i := next_timer (world s) in
     mkSt (set_startTime (now w1)
             (set_isActive true
                (set_heartbeatInterval (Some (S i))
                   (set_pollInterval (Some i) (this s)))))
          (mkWorld (trace w1) (now w1)
                   (timers (world s) ++ start_timers i) (S (S (S i))))).
Proof.
  intros Hd Hs. destruct s as [h w]. unfold register_call in Hd. cbn [this world] in *.
  unfold start, registerSession, startPolling, startHeartbeat, startStatusDisplay,
    try_catch, bind, ret, throw, get_this, set_this, Date_now, console_log, axios,
    setInterval, after, request, register_call, start_timers.
  cbn -[Z.add]. rewrite Hd. cbn -[Z.add]. rewrite Hs. cbn -[Z.add].
  rewrite <- !app_assoc. reflexivity.
Qed.

Lemma stop_run (env : Env) (s : St) :
  stop env s
  = (inl tt,
     let h := this s in
     let w := world s in
     after env (request h (DeleteCliSession (sessionId h)))
       (mkSt (set_heartbeatInterval None (set_pollInterval None (set_isActive false h)))
             (mkWorld (trace w) (now w)
                      (cleared (heartbeatInterval h) (cleared (pollInterval h) (timers w)))
                      (next_timer w)))).
Proof.
  destruct s as [h w]. destruct h as [u a sid act [i|] [j|] c v p st n lh lc];
    unfold stop, deactivateSession, after, request, cleared,
      try_catch, bind, ret, throw, get_this, set_this, Date_now, console_log, axios,
      clearInterval;
    cbn -[Z.add];
    destruct (http env _ _); reflexivity.
Qed.

(** X13: when the backend accepts the registration, [start()] returns
    with the listener active, after that one request; it has installed
    the poll timer (5 s), the heartbeat timer (30 s) and the status
    timer (10 s) in this order, keeps the handles of the first two, and
    the start time is the time at which the registration was answered. *)
Theorem start_activates (env : Env) (s : St) (data : Data.t) :
  http env (trace (world s)) (register_call (this s)) = Resolved data ->
  Data.success data = true ->
  let s' := snd (start env s) in
  let i := next_timer (world s) in
  let post := request (this s) (register_call (this s)) in
  fst (start env s) = inl tt
  /\ isActive (this s') = true
  /\ pollInterval (this s') = Some i
  /\ heartbeatInterval (this s') = Some (S i)
  /\ startTime (this s') = (now (world s) + delay env (trace (world s)) post)%Z
  /\ commandCount (this s') = commandCount (this s)
  /\ timers (world s') = (timers (world s) ++ start_timers i)%list
  /\ trace (world s') = (trace (world s) ++ [post])%list.
Proof.
  intros Hd Hs. cbv zeta. rewrite (start_success env s data Hd Hs).
  repeat split; reflexivity.
Qed.

Lemma start_activates_witness :
  isActive (this st_started) = true
  /\ timers (world st_started) = start_timers 0.
Proof.
  pose proof (start_activates env_ok st_created ok_data eq_refl eq_refl) as H.
  cbv zeta in H. destruct H as (_ & H1 & _ & _ & _ & _ & H2 & _).
  split; [exact H1|exact H2].
Defined.

Lemma cleared_fresh (i n : nat) (ts : list Timer) :
  Forall (fun t => timer_id t < n) ts -> n <= i ->
  cleared (Some i) ts = ts.
Proof.
  intros H Hi. unfold cleared.
  induction H as [|t r Ht _ IH]; cbn [filter]; [reflexivity|].
  destruct (Nat.eqb_spec (timer_id t) i); [lia|]. cbn [negb]. rewrite IH. reflexivity.
Qed.

Lemma cleared_app (i : option nat) (l1 l2 : list Timer) :
  cleared i (l1 ++ l2) = (cleared i l1 ++ cleared i l2)%list.
Proof. destruct i; [apply filter_app|reflexivity]. Qed.

Lemma eqb_succ_l (i : nat) : Nat.eqb (S i) i = false.
Proof. apply Nat.eqb_neq. lia. Qed.

Lemma eqb_succ_succ_l (i : nat) : Nat.eqb (S (S i)) i = false.
Proof. apply Nat.eqb_neq. lia. Qed.

(** X14: [stop()] after a successful [start()] removes the poll timer
    and the heartbeat timer and leaves the listener inactive, but the
    status timer that [start()] installed is never cleared: it stays
    among the live timers.  The backend has seen the registration and
    then the deregistration. *)
Theorem stop_leaves_status_timer (env : Env) (s : St) (data : Data.t) :
  timers_fresh (world s) ->
  http env (trace (world s)) (register_call (this s)) = Resolved data ->
  Data.success data = true ->
  let s2 := snd (stop env (snd (start env s))) in
  let i := next_timer (world s) in
  timers (world s2)
  = (timers (world s) ++ [mkTimer (S (S i)) StatusTimer 10000])%list
  /\ isActive (this s2) = false
  /\ pollInterval (this s2) = None
  /\ heartbeatInterval (this s2) = None
  /\ trace (world s2)
     = (trace (world s)
          ++ [request (this s) (register_call (this s));
              request (this s) (DeleteCliSession (sessionId (this s)))])%list.
Proof.
  intros Hf Hd Hs. cbv zeta.
  rewrite (start_success env s data Hd Hs), stop_run.
  cbn [snd this world after record trace timers next_timer now
       set_startTime set_isActive set_heartbeatInterval set_pollInterval
       pollInterval heartbeatInterval isActive sessionId apiUrl authToken request].
  rewrite !cleared_app.
  rewrite (cleared_fresh _ _ _ Hf (Nat.le_refl _)).
  rewrite (cleared_fresh _ _ _ Hf (Nat.le_succ_diag_r _)).
  unfold start_timers, cleared. cbn [filter timer_id].
  rewrite !Nat.eqb_refl, !eqb_succ_l, !eqb_succ_succ_l.
  cbn [negb filter timer_id]. rewrite !Nat.eqb_refl, !eqb_succ_l. cbn [negb].
  rewrite <- !app_assoc. repeat split; reflexivity.
Qed.

Lemma stop_leaves_status_timer_witness :
  timers (world (snd (stop env_ok st_started))) = [mkTimer 2 StatusTimer 10000].
Proof.
  destruct (stop_leaves_status_timer env_ok st_created ok_data
              (Forall_nil _) eq_refl eq_refl) as [H _].
  exact H.
Defined.

Lemma start_again (env : Env) (s : St) (d1 d2 : Data.t) :
  http env (trace (world s)) (register_call (this s)) = Resolved d1 ->
  Data.success d1 = true ->
  http env (trace (world s) ++ [request (this s) (register_call (this s))])
    (register_call (this s)) = Resolved d2 ->
  Data.success d2 = true ->
  exists s2,
    snd (start env (snd (start env s))) = s2
    /\ isActive (this s2) = true
    /\ pollInterval (this s2) = Some (S (S (S (next_timer (world s)))))
    /\ heartbeatInterval (this s2) = Some (S (S (S (S (next_timer (world s))))))
    /\ apiUrl (this s2) = apiUrl (this s)
    /\ authToken (this s2) = authToken (this s)
    /\ sessionId (this s2) = sessionId (this s)
    /\ timers (world s2)
       = (timers (world s) ++ start_timers (next_timer (world s))
            ++ start_timers (S (S (S (next_timer (world s))))))%list
    /\ trace (world s2)
       = (trace (world s)
            ++ [request (this s) (register_call (this s));
                request (this s) (register_call (this s))])%list.
Proof.
  intros Hd1 Hs1 Hd2 Hs2.
  rewrite (start_success env s d1 Hd1 Hs1). cbv zeta. cbn [snd].
  erewrite start_success; [|exact Hd2|exact Hs2].
  eexists. split; [reflexivity|].
  cbn [snd this world after record trace timers next_timer now
       set_startTime set_isActive set_heartbeatInterval set_pollInterval
       pollInterval heartbeatInterval isActive sessionId apiUrl authToken request
       register_call capabilities version platform].
  rewrite <- !app_assoc. repeat split; reflexivity.
Qed.

Lemma cleared_start_timers_own (i : nat) :
  cleared (Some (S i)) (cleared (Some i) (start_timers i))
  = [mkTimer (S (S i)) StatusTimer 10000].
Proof.
  unfold start_timers, cleared. cbn [filter timer_id].
  rewrite !Nat.eqb_refl, !eqb_succ_l, !eqb_succ_succ_l.
  cbn [negb filter timer_id]. rewrite !Nat.eqb_refl, !eqb_succ_l. reflexivity.
Qed.

Lemma cleared_start_timers_later (i j : nat) :
  S (S i) < j -> cleared (Some j) (start_timers i) = start_timers i.
Proof.
  intros H. apply (cleared_fresh j (S (S (S i)))); [|lia].
  unfold start_timers. repeat constructor; cbn [timer_id]; lia.
Qed.

(** X15: a second [start()] on a listener that is already started
    registers again and overwrites the two interval handles, so the
    [stop()] that follows clears only the timers of the second start:
    the poll timer and the heartbeat timer of the first start stay
    installed, with both status timers. *)
Theorem restart_orphans_timers (env : Env) (s : St) (d1 d2 : Data.t) :
  let post := register_call (this s) in
  let i := next_timer (world s) in
  timers_fresh (world s) ->
  http env (trace (world s)) post = Resolved d1 ->
  Data.success d1 = true ->
  http env (trace (world s) ++ [request (this s) post]) post = Resolved d2 ->
  Data.success d2 = true ->
  let s3 := snd (stop env (snd (start env (snd (start env s))))) in
  timers (world s3)
  = (timers (world s)
       ++ [mkTimer i PollTimer 5000; mkTimer (S i) HeartbeatTimer 30000;
           mkTimer (S (S i)) StatusTimer 10000;
           mkTimer (S (S (S (S (S i))))) StatusTimer 10000])%list
  /\ isActive (this s3) = false
  /\ trace (world s3)
     = (trace (world s)
          ++ [request (this s) post; request (this s) post;
              request (this s) (DeleteCliSession (sessionId (this s)))])%list.
Proof.
  intros post i Hf Hd1 Hs1 Hd2 Hs2. subst post i. cbv zeta.
  destruct (start_again env s d1 d2 Hd1 Hs1 Hd2 Hs2)
    as (s2 & -> & _ & Hp & Hh & Hu & Ha & Hi & Ht & Htr).
  rewrite stop_run. cbv zeta.
  unfold after, request.
  cbn [snd this world record trace timers isActive set_isActive
       set_pollInterval set_heartbeatInterval].
  rewrite Hp, Hh, Ht, Htr, Hu, Ha, Hi.
  rewrite !cleared_app.
  rewrite (cleared_fresh (S (S (S (next_timer (world s))))) _ _ Hf) by lia.
  rewrite (cleared_fresh (S (S (S (S (next_timer (world s)))))) _ _ Hf) by lia.
  rewrite cleared_start_timers_own.
  rewrite (cleared_start_timers_later (next_timer (world s))
             (S (S (S (next_timer (world s)))))) by lia.
  rewrite (cleared_start_timers_later (next_timer (world s))
             (S (S (S (S (next_timer (world s))))))) by lia.
  unfold start_timers, request. rewrite <- !app_assoc.
  repeat split; reflexivity.
Qed.

Lemma restart_orphans_timers_witness :
  map timer_kind
      (timers (world (snd (stop env_ok (snd (start env_ok st_started))))))
  = [PollTimer; HeartbeatTimer; StatusTimer; StatusTimer].
Proof.
  pose proof (restart_orphans_timers env_ok st_created ok_data ok_data) as H.
  cbv zeta in H.
  destruct (H (Forall_nil _) eq_refl eq_refl eq_refl eq_refl) as [H1 _].
  unfold st_started. rewrite H1. reflexivity.
Defined.

Lemma substring_last (s : string) :
  substring (String.length s - 1) 1 s
  = match last_char s with
    | Some c => String c ""
    | None => ""
    end.
Proof.
  induction s as [|c r IH]; [reflexivity|].
  destruct r as [|c' r']; [reflexivity|].
  change (String.length (String c (String c' r')) - 1)
    with (S (String.length r')).
  change (last_char (String c (String c' r'))) with (last_char (String c' r')).
  rewrite <- IH. cbn [String.length Nat.sub substring].
  rewrite Nat.sub_0_r. reflexivity.
Qed.

Lemma substring_0_S (m : nat) (c : ascii) (r : string) :
  substring 0 (S m) (String c r) = String c (substring 0 m r).
Proof. reflexivity. Qed.

Lemma substring_init (s : string) :
  (substring 0 (String.length s - 1) s
   ++ match last_char s with
      | Some c => String c ""
      | None => ""
      end)%string = s.
Proof.
  induction s as [|c r IH]; [reflexivity|].
  destruct r as [|c' r']; [reflexivity|].
  change (String.length (String c (String c' r')) - 1)
    with (S (String.length r')).
  change (last_char (String c (String c' r'))) with (last_char (String c' r')).
  rewrite substring_0_S. cbn [append].
  replace (String.length r') with (String.length (String c' r') - 1)
    by (cbn [String.length]; lia).
  rewrite IH. reflexivity.
Qed.

(** X16: the constructor rejects the empty URL with
    [API URL is required]; for any other URL it builds an inactive
    handler with a zero command counter and no interval handle, whose
    URL is the given one without its last character when that is a
    slash, and the given one otherwise (one slash is removed, not
    every trailing slash). *)
Theorem constructor_normalises_url
    (url authToken uuid version platform : string) (t : Z) :
  (url = "" ->
   new_RemoteCommandHandler url authToken uuid version platform t
   = inr (Error "API URL is required"))
  /\ (url <> "" ->
      exists h,
        new_RemoteCommandHandler url authToken uuid version platform t = inl h
        /\ isActive h = false
        /\ commandCount h = 0%Z
        /\ pollInterval h = None
        /\ heartbeatInterval h = None
        /\ sessionId h = uuid
        /\ match last_char url with
           | Some "/"%char => url = (apiUrl h ++ "/")%string
           | _ => apiUrl h = url
           end).
Proof.
  split; [intros ->; reflexivity|].
  intros Hne. unfold new_RemoteCommandHandler.
  apply String.eqb_neq in Hne. rewrite Hne.
  eexists. split; [reflexivity|]. cbn [isActive commandCount pollInterval
    heartbeatInterval sessionId apiUrl].
  repeat (split; [reflexivity|]).
  rewrite substring_last.
  pose proof (substring_init url) as Hi.
  destruct (last_char url) as [c|]; [|reflexivity].
  destruct (String c "" =? "/") eqn:E.
  - apply String.eqb_eq in E. injection E as ->. symmetry. exact Hi.
  - destruct (ascii_dec c "/") as [->|Hc]; [discriminate|].
    destruct c as [[] [] [] [] [] [] [] []]; try reflexivity. congruence.
Qed.

Lemma constructor_normalises_url_witness :
  exists h,
    new_RemoteCommandHandler "https://app.qirvo.ai//" "token" "uuid" "1.0.0"
      "linux-x64" 0
    = inl h
    /\ apiUrl h = "https://app.qirvo.ai/".
Proof.
  destruct (proj2 (constructor_normalises_url "https://app.qirvo.ai//" "token"
                     "uuid" "1.0.0" "linux-x64" 0))
    as (h & H & _); [discriminate|].
  exists h. split; [exact H|].
  injection H as <-. reflexivity.
Defined.

End LifecycleMore.

(** ** The status reporter *)

Section StatusReporter.
Local Open Scope Z_scope.

(** X17: when the clock has not gone back since the start, the uptime
    that is shown is the decomposition of the elapsed whole seconds
    into hours, minutes below 60 and seconds below 60, with the hours
    left out when they are zero and the minutes too when both are zero;
    reading the uptime changes nothing. *)
Theorem getUptime_decomposes (s : St) :
  startTime (this s) <= now (world s) ->
  exists hh mm ss,
    0 <= hh /\ 0 <= mm < 60 /\ 0 <= ss < 60
    /\ hh * 3600 + mm * 60 + ss = (now (world s) - startTime (this s)) / 1000
    /\ getUptime s
       = (inl (if 0 <? hh
               then (Js.show_Z hh ++ "h " ++ Js.show_Z mm ++ "m "
                       ++ Js.show_Z ss ++ "s")%string
               else if 0 <? mm
                    then (Js.show_Z mm ++ "m " ++ Js.show_Z ss ++ "s")%string
                    else (Js.show_Z ss ++ "s")%string),
          s).
Proof.
  intros Hle.
  set (sec := (now (world s) - startTime (this s)) / 1000).
  assert (Hsec : 0 <= sec) by (apply Z.div_pos; lia).
  assert (Hmin : 0 <= sec / 60) by (apply Z.div_pos; lia).
  exists (sec / 60 / 60), ((sec / 60) mod 60), (sec mod 60).
  split; [apply Z.div_pos; lia|].
  split; [apply Z.mod_pos_bound; lia|].
  split; [apply Z.mod_pos_bound; lia|].
  split.
  - pose proof (Z.div_mod sec 60). pose proof (Z.div_mod (sec / 60) 60). lia.
  - unfold getUptime, bind, Date_now, get_this, ret. fold sec.
    rewrite !Z.rem_mod_nonneg by lia.
    destruct (0 <? sec / 60 / 60) eqn:Eh; [reflexivity|].
    apply Z.ltb_ge in Eh.
    assert (H60 : sec / 60 < 60).
    { pose proof (Z.div_mod (sec / 60) 60).
      pose proof (Z.mod_pos_bound (sec / 60) 60).
      assert (sec / 60 / 60 = 0) by (pose proof (Z.div_pos (sec / 60) 60); lia).
      lia. }
    rewrite (Z.mod_small (sec / 60) 60) by lia.
    destruct (0 <? sec / 60) eqn:Em; [reflexivity|].
    apply Z.ltb_ge in Em.
    assert (H0 : sec / 60 = 0) by lia.
    rewrite (Z.mod_small sec 60); [reflexivity|].
    pose proof (Z.div_mod sec 60). pose proof (Z.mod_pos_bound sec 60). lia.
Qed.

Lemma getUptime_decomposes_witness :
  exists hh mm ss,
    hh * 3600 + mm * 60 + ss = 3725
    /\ fst (getUptime (mkSt handler0 (mkWorld [] 1700003725999 [] 0)))
       = inl (if 0 <? hh
              then (Js.show_Z hh ++ "h " ++ Js.show_Z mm ++ "m "
                      ++ Js.show_Z ss ++ "s")%string
              else if 0 <? mm
                   then (Js.show_Z mm ++ "m " ++ Js.show_Z ss ++ "s")%string
                   else (Js.show_Z ss ++ "s")%string).
Proof.
  destruct (getUptime_decomposes (mkSt handler0 (mkWorld [] 1700003725999 [] 0)))
    as (hh & mm & ss & _ & _ & _ & H1 & H2).
  - cbn. lia.
  - exists hh, mm, ss. split; [exact H1|]. rewrite H2. reflexivity.
Defined.

Example getUptime_example :
  fst (getUptime (mkSt handler0 (mkWorld [] 1700003725999 [] 0)))
  = inl "1h 2m 5s"%string.
Proof. vm_compute. reflexivity. Qed.

End StatusReporter.

(** ** The [remote] command *)

Section RemoteCommand.
Import Remote.

Lemma start_failure (env : Env) (s : St) :
  match http env (trace (world s)) (register_call (this s)) with
  | Resolved data => Data.success data = false
  | Rejected _ => True
  end ->
  exists err,
    start env s = (inr err, after env (request (this s) (register_call (this s))) s).
Proof.
  destruct s as [h w]. unfold register_call. cbn [this world]. intros H.
  unfold start, registerSession, try_catch, bind, ret, throw, get_this, console_log,
    axios, after, request, register_call.
  cbn -[Z.add].
  destruct (http env (trace w) _) as [d|e]; cbn -[Z.add] in H |- *.
  - rewrite H. eexists. reflexivity.
  - eexists. reflexivity.
Qed.

(** X18: at the level of the [remote] command, stopping is idempotent:
    [stopRemoteListener] stops the handler, sends its one
    deregistration and forgets the handler, so a second call finds no
    handler and does nothing; without a handler it does nothing at all.
    After it the wait of [keepAlive] is over. *)
Theorem stopRemoteListener_idempotent (env : Env) (c : Cli) :
  let c' := stopRemoteListener env c in
  remoteHandler c' = None
  /\ stopRemoteListener env c' = c'
  /\ keepAlive_done c' = true
  /\ (remoteHandler c = None -> c' = c)
  /\ (forall h,
        remoteHandler c = Some h ->
        trace (cli_world c')
        = (trace (cli_world c) ++ [request h (DeleteCliSession (sessionId h))])%list).
Proof.
  cbv zeta. unfold stopRemoteListener, keepAlive_done.
  destruct (remoteHandler c) as [h|] eqn:E.
  - rewrite stop_run. cbn [remoteHandler snd world after record trace this].
    repeat split; try reflexivity; [discriminate|].
    intros h' H. injection H as <-. reflexivity.
  - rewrite E. repeat split; try reflexivity; auto. discriminate.
Qed.

Lemma stopRemoteListener_idempotent_witness :
  deregistrations
    (trace (cli_world
              (stopRemoteListener env_ok
                 (stopRemoteListener env_ok
                    (mkCli (Some (this st_started)) (world st_started) [])))))
  = 1.
Proof.
  pose proof (stopRemoteListener_idempotent env_ok
                (mkCli (Some (this st_started)) (world st_started) [])) as H.
  cbv zeta in H. destruct H as (_ & H & _).
  rewrite H. reflexivity.
Defined.

(** X19: [startRemoteListener] does nothing (no handler is built, no
    request is sent, the state is as before) when a listener is
    already running, and when no auth token is configured or the
    configured one is the empty string. *)
Theorem startRemoteListener_guards
    (env : Env) (config : Config.t) (uuid version platform url : string) (c : Cli) :
  keepAlive_done c = false \/ Js.truthy (Config.authToken config) = false ->
  startRemoteListener env config uuid version platform url c = (Returned, c).
Proof.
  unfold startRemoteListener, keepAlive_done, Remote.getAuthToken, Config.getAuthToken.
  intros [H|H].
  - destruct (remoteHandler c) as [h|]; [|discriminate].
    destruct (isActive h); [reflexivity|discriminate].
  - rewrite H. destruct (remoteHandler c) as [h|]; [destruct (isActive h)|];
      reflexivity.
Qed.

Lemma startRemoteListener_guards_witness :
  startRemoteListener env_ok (Config.mk None None (Some "") None None)
    "uuid" "1.0.0" "linux-x64" "https://app.qirvo.ai" (mkCli None world0 [])
  = (Returned, mkCli None world0 []).
Proof.
  apply startRemoteListener_guards. right. reflexivity.
Defined.

(** X20: with a token configured and no listener running, when the
    backend accepts the registration [startRemoteListener] ends in the
    wait of [keepAlive] with an active handler for the fresh session,
    after that one request, and with shutdown handlers for SIGINT and
    SIGTERM; a signal then stops the listener with one deregistration
    and exits with code 0. *)
Theorem startRemoteListener_listens
    (env : Env) (config : Config.t) (uuid version platform url token : string)
    (c : Cli) (h : Handler) (data : Data.t) :
  keepAlive_done c = true ->
  Remote.getAuthToken config = Some token ->
  new_RemoteCommandHandler url token uuid version platform (now (cli_world c)) = inl h ->
  http env (trace (cli_world c)) (register_call h) = Resolved data ->
  Data.success data = true ->
  exists c' h',
    startRemoteListener env config uuid version platform url c = (KeepAlive, c')
    /\ remoteHandler c' = Some h'
    /\ isActive h' = true
    /\ sessionId h' = uuid
    /\ keepAlive_done c' = false
    /\ signals c' = (signals c ++ ["SIGINT"; "SIGTERM"])%list
    /\ trace (cli_world c')
       = (trace (cli_world c) ++ [request h (register_call h)])%list
    /\ fst (on_signal env c') = Exited 0
    /\ remoteHandler (snd (on_signal env c')) = None
    /\ trace (cli_world (snd (on_signal env c')))
       = (trace (cli_world c)
            ++ [request h (register_call h);
                request h (DeleteCliSession uuid)])%list.
Proof.
  intros Hk Ht Hn Hd Hs.
  assert (Hid : sessionId h = uuid).
  { unfold new_RemoteCommandHandler in Hn. destruct (url =? ""); [discriminate|].
    injection Hn as <-. reflexivity. }
  pose proof (start_success env (mkSt h (cli_world c)) data Hd Hs) as E.
  cbv zeta in E.
  unfold startRemoteListener, on_signal, stopRemoteListener.
  rewrite Ht, Hn, E.
  replace (match remoteHandler c with
           | Some h0 => isActive h0
           | None => false
           end) with false.
  2:{ unfold keepAlive_done in Hk. destruct (remoteHandler c) as [h0|]; [|reflexivity].
      destruct (isActive h0); [discriminate|reflexivity]. }
  eexists. eexists. split; [reflexivity|].
  cbn [remoteHandler this world cli_world signals fst snd].
  split; [reflexivity|].
  rewrite stop_run.
  unfold keepAlive_done, after, request.
  cbn [remoteHandler this world cli_world signals fst snd trace record isActive
       sessionId apiUrl authToken set_startTime set_isActive
       set_heartbeatInterval set_pollInterval negb].
  rewrite <- !app_assoc, Hid. repeat split; reflexivity.
Qed.

Lemma startRemoteListener_listens_witness :
  fst (startRemoteListener env_ok (Config.mk None None (Some "token") None None)
         "3f2b8c1e-9d47-4a6b-8c2d-5e1f0a7b9c34" "1.0.0" "linux-x64"
         "https://app.qirvo.ai/" (mkCli None world0 []))
  = KeepAlive.
Proof.
  destruct (startRemoteListener_listens env_ok
              (Config.mk None None (Some "token") None None)
              "3f2b8c1e-9d47-4a6b-8c2d-5e1f0a7b9c34" "1.0.0" "linux-x64"
              "https://app.qirvo.ai/" "token" (mkCli None world0 []) handler0 ok_data
              eq_refl eq_refl eq_refl eq_refl eq_refl)
    as (c' & h' & H & _).
  rewrite H. reflexivity.
Defined.

(** X21: with a token configured and no listener running, a failed
    start ends the process with exit code 1: for the empty URL before
    any request, and for a registration that fails or is refused after
    that one request; no shutdown handler has been installed and no
    listener is active. *)
Theorem startRemoteListener_exits_on_failure
    (env : Env) (config : Config.t) (uuid version platform url token : string)
    (c : Cli) :
  keepAlive_done c = true ->
  Remote.getAuthToken config = Some token ->
  (url = "" ->
   startRemoteListener env config uuid version platform url c = (Exited 1, c))
  /\ (forall h,
        new_RemoteCommandHandler url token uuid version platform (now (cli_world c))
        = inl h ->
        match http env (trace (cli_world c)) (register_call h) with
        | Resolved data => Data.success data = false
        | Rejected _ => True
        end ->
        exists c',
          startRemoteListener env config uuid version platform url c = (Exited 1, c')
          /\ keepAlive_done c' = true
          /\ signals c' = signals c
          /\ trace (cli_world c')
             = (trace (cli_world c) ++ [request h (register_call h)])%list).
Proof.
  intros Hk Ht.
  assert (Hrun : match remoteHandler c with
                 | Some h0 => isActive h0
                 | None => false
                 end = false).
  { unfold keepAlive_done in Hk. destruct (remoteHandler c) as [h0|]; [|reflexivity].
    destruct (isActive h0); [discriminate|reflexivity]. }
  split.
  - intros ->. unfold startRemoteListener. rewrite Hrun, Ht. reflexivity.
  - intros h Hn Hf.
    assert (Hact : isActive h = false).
    { unfold new_RemoteCommandHandler in Hn. destruct (url =? ""); [discriminate|].
      injection Hn as <-. reflexivity. }
    destruct (start_failure env (mkSt h (cli_world c)) Hf) as [err E].
    unfold startRemoteListener. rewrite Hrun, Ht, Hn, E.
    eexists. split; [reflexivity|].
    unfold keepAlive_done, after.
    cbn [remoteHandler this world cli_world signals trace record].
    rewrite Hact. repeat split; reflexivity.
Qed.

Lemma startRemoteListener_exits_on_failure_witness :
  fst (startRemoteListener env_quota (Config.mk None None (Some "token") None None)
         "3f2b8c1e-9d47-4a6b-8c2d-5e1f0a7b9c34" "1.0.0" "linux-x64"
         "https://app.qirvo.ai/" (mkCli None world0 []))
  = Exited 1.
Proof.
  destruct (proj2 (startRemoteListener_exits_on_failure env_quota
                     (Config.mk None None (Some "token") None None)
                     "3f2b8c1e-9d47-4a6b-8c2d-5e1f0a7b9c34" "1.0.0" "linux-x64"
                     "https://app.qirvo.ai/" "token" (mkCli None world0 [])
                     eq_refl eq_refl)
              handler0 eq_refl eq_refl)
    as (c' & H & _).
  rewrite H. reflexivity.
Defined.

End RemoteCommand.

(** ** More on the poll loop *)

Section PollLoopMore.
Import Loop.
Local Open Scope list_scope.

Lemma update_update (k : nat) (r1 r2 : Run) (rs : list Run) :
  update k r2 (update k r1 rs) = update k r2 rs.
Proof.
  revert k. induction rs as [|x t IH]; intros [|k]; simpl; try reflexivity.
  rewrite IH. reflexivity.
Qed.

Lemma update_snoc (r x : Run) (rs : list Run) :
  update (length rs) r (rs ++ [x]) = rs ++ [r].
Proof. induction rs as [|y t IH]; simpl; [reflexivity|]. rewrite IH. reflexivity. Qed.

(** The labels that resume the run of tick [k] once for each of the
    commands [cs]: the end of its execution, then the end of its
    report. *)
Lemma drain_run (k : nat) (f rest : list Req.t) :
  forall (c : Req.t) (a : bool) (rs : list Run) (lg : list Entry),
    nth_error rs k = Some (mkRun f (AwaitExec c rest)) ->
    exec_labels (flat_map (fun _ => [ExecDone k; ReportDone k]) (c :: rest))
                (mkState a rs lg)
    = Some (mkState a (update k (mkRun f Finished) rs)
              (lg ++ [Completed k c; Reported k c] ++ sequential k rest)).
Proof.
  induction rest as [|c' rest' IH]; intros c a rs lg Hk;
    assert (Hlt : k < length rs) by (apply nth_error_Some; congruence).
  - cbn [flat_map app exec_labels step runs log active]. rewrite Hk.
    cbn [exec_labels step runs log active].
    rewrite nth_error_update_eq by exact Hlt.
    cbn [next_command runs log active]. rewrite update_update, <- app_assoc.
    reflexivity.
  - change (flat_map (fun _ => [ExecDone k; ReportDone k]) (c :: c' :: rest'))
      with (ExecDone k :: ReportDone k
              :: flat_map (fun _ => [ExecDone k; ReportDone k]) (c' :: rest')).
    cbn [exec_labels step runs log active]. rewrite Hk.
    cbn [exec_labels step runs log active].
    rewrite nth_error_update_eq by exact Hlt.
    cbn [next_command runs log active]. rewrite update_update.
    rewrite IH by (apply nth_error_update_eq; exact Hlt).
    rewrite update_update, <- !app_assoc. reflexivity.
Qed.

(** X22: stopping the listener does not cancel a batch in flight: a
    run that is executing a command when [stop()] sets the listener
    inactive still completes and reports that command and then takes,
    in order, every command that remained of its batch; a firing of
    the timer after the stop starts no new run. *)
Theorem stop_does_not_cancel_batch
    (st : State) (k : nat) (f rest : list Req.t) (c : Req.t) :
  nth_error (runs st) k = Some (mkRun f (AwaitExec c rest)) ->
  exec_labels
    (Stop :: Fire :: flat_map (fun _ => [ExecDone k; ReportDone k]) (c :: rest)) st
  = Some (mkState false (update k (mkRun f Finished) (runs st))
            (log st ++ [Completed k c; Reported k c] ++ sequential k rest)).
Proof.
  intros Hk. destruct st as [a rs lg]. cbn [runs log] in *.
  cbn [exec_labels step active runs log].
  apply drain_run. exact Hk.
Qed.

Lemma stop_does_not_cancel_batch_witness :
  option_map log
    (exec_labels [Stop; Fire; ExecDone 0; ReportDone 0; ExecDone 0; ReportDone 0]
       (after_labels [Fire; FetchDone 0 (pending [req_sleep; req_ls])]))
  = Some [Dispatched 0 req_sleep; Completed 0 req_sleep; Reported 0 req_sleep;
          Dispatched 0 req_ls; Completed 0 req_ls; Reported 0 req_ls].
Proof.
  exact (f_equal (option_map log)
           (stop_does_not_cancel_batch
              (after_labels [Fire; FetchDone 0 (pending [req_sleep; req_ls])])
              0 [req_sleep; req_ls] [req_ls] req_sleep eq_refl)).
Defined.

Lemma executing_snoc (rs : list Run) (r : Run) (a : bool) (lg : list Entry) :
  executing (mkState a (rs ++ [r]) lg)
  = executing (mkState a rs lg) + (if is_executing r then 1 else 0).
Proof.
  unfold executing. cbn [runs]. rewrite filter_app, length_app. cbn [filter].
  destruct (is_executing r); reflexivity.
Qed.

(** A run with times is a run. *)
Lemma timed_run_reachable (period : Z) (ls : list (Z * Label)) :
  forall ts ts',
    reachable (Timed.base ts) -> Timed.run period ls ts = Some ts' ->
    reachable (Timed.base ts').
Proof.
  induction ls as [|[t l] r IH]; intros ts ts' Hr H; cbn [Timed.run] in H.
  - injection H as <-. exact Hr.
  - destruct (Timed.step period t l ts) as [ts1|] eqn:E; [|discriminate].
    apply (IH ts1); [|exact H].
    unfold Timed.step in E.
    destruct (_ && _); [|discriminate].
    destruct (step l (Timed.base ts)) as [st1|] eqn:E1; [|discriminate].
    injection E as <-. cbn [Timed.base].
    exact (reach_step l _ _ Hr E1).
Qed.

Lemma timed_run_app (period : Z) (l1 l2 : list (Z * Label)) :
  forall ts,
    Timed.run period (l1 ++ l2) ts
    = match Timed.run period l1 ts with
      | Some ts' => Timed.run period l2 ts'
      | None => None
      end.
Proof.
  induction l1 as [|[t l] r IH]; intros ts; cbn [app Timed.run]; [reflexivity|].
  destruct (Timed.step period t l ts); [apply IH|reflexivity].
Qed.

Lemma on_time_app (t : Z) (rs rs' : list Run) (since since' : list Z) :
  length rs = length since ->
  Timed.on_time t (rs ++ rs') (since ++ since')
  = Timed.on_time t rs since && Timed.on_time t rs' since'.
Proof.
  revert since. induction rs as [|r rs0 IH]; intros [|t0 since0] H;
    try discriminate; cbn [app Timed.on_time length] in *; [reflexivity|].
  rewrite IH by congruence. apply andb_assoc.
Qed.

(** The commands handed to the ticks from [i] on have not run out of
    time at [t] when the first of them has not. *)
Lemma on_time_held (n : nat) (t : Z) (k i : nat) :
  (t <= handed_at i + poll_period * (Z.of_nat n + 1))%Z ->
  Timed.on_time t
    (repeat (mkRun [req_held n] (AwaitExec (req_held n) [])) k)
    (map handed_at (seq i k)) = true.
Proof.
  revert i. induction k as [|k IH]; intros i H; [reflexivity|].
  cbn [repeat seq map Timed.on_time status].
  rewrite IH by (unfold handed_at, poll_period in *; lia).
  rewrite andb_true_r.
  unfold Timed.in_time, Timed.timeout_of. cbn [Req.timeout req_held].
  unfold poll_period in *.
  destruct (5000 * (Z.of_nat n + 1) =? 0)%Z; [reflexivity|].
  apply Z.leb_le. lia.
Qed.

Lemma stamp_snoc (t x : Z) (l : list Z) :
  Timed.stamp (length l) t (l ++ [x]) = l ++ [t].
Proof. induction l as [|y r IH]; simpl; [reflexivity|]. rewrite IH. reflexivity. Qed.

Lemma repeat_snoc {A} (x : A) (k : nat) : repeat x k ++ [x] = repeat x (S k).
Proof. induction k as [|k IH]; simpl; [reflexivity|]. rewrite IH. reflexivity. Qed.

(** One more tick is handed the command while the earlier ones are
    still executing theirs. *)
Lemma held_tick_run (n k : nat) :
  k < n ->
  Timed.run poll_period (held_tick (req_held n) k) (held_state (req_held n) k)
  = Some (held_state (req_held n) (S k)).
Proof.
  intros Hk. set (c := req_held n).
  set (r := mkRun [c] (AwaitExec c [])).
  assert (Hclock : (match k with O => 0 | S j => handed_at j end
                    <= poll_period * (Z.of_nat k + 1))%Z).
  { destruct k as [|j]; unfold handed_at, poll_period; lia. }
  unfold held_tick, held_state. fold c r.
  cbn [Timed.run]. unfold Timed.step at 1.
  cbn [Timed.clock Timed.base Timed.since Timed.fired runs Timed.due].
  rewrite (proj2 (Z.leb_le _ _) Hclock).
  unfold r, c. rewrite on_time_held by (unfold handed_at, poll_period; lia).
  rewrite Z.leb_refl. cbn [andb step active runs log].
  unfold Timed.step.
  cbn [Timed.clock Timed.base Timed.since Timed.fired runs Timed.due active].
  rewrite (proj2 (Z.leb_le _ _)) by (unfold handed_at; lia).
  rewrite on_time_app by (rewrite repeat_length, length_map, length_seq; reflexivity).
  rewrite on_time_held by (unfold handed_at, poll_period; lia).
  cbn [Timed.on_time status andb step runs].
  rewrite nth_error_app2 by (rewrite repeat_length; lia).
  rewrite repeat_length, Nat.sub_diag.
  cbn [nth_error pending Data.success Data.commands andb length Nat.ltb Nat.leb
       next_command active runs log].
  f_equal. f_equal.
  - replace k with (length (map handed_at (seq 0 k))) at 1
      by (rewrite length_map, length_seq; reflexivity).
    rewrite stamp_snoc, seq_S, map_app. reflexivity.
  - f_equal.
    + replace k with (length (repeat (mkRun [req_held n] (AwaitExec (req_held n) [])) k))
        at 1 by apply repeat_length.
      rewrite update_snoc. apply repeat_snoc.
    + rewrite seq_S, map_app. reflexivity.
Qed.

Lemma held_ticks_run (n k : nat) :
  k <= n ->
  Timed.run poll_period (held_ticks (req_held n) k) Timed.init
  = Some (held_state (req_held n) k).
Proof.
  induction k as [|k IH]; intros Hk; [reflexivity|].
  unfold held_ticks in *. rewrite seq_S, flat_map_app, timed_run_app.
  rewrite IH by lia. cbn [flat_map]. rewrite app_nil_r.
  apply held_tick_run. lia.
Qed.

Lemma executing_held (c : Req.t) (k : nat) :
  executing (Timed.base (held_state c k)) = k.
Proof.
  unfold executing, held_state. cbn [Timed.base runs].
  induction k as [|k IH]; [reflexivity|].
  cbn [repeat filter is_executing status length]. f_equal. exact IH.
Qed.

(** X23: the overlap of executions grows with the timeout of the
    commands: for every number [n], when each tick is handed a command
    whose timeout is [n + 1] periods of the poll timer, the listener is
    executing [n] commands at once after [n] ticks, in a run in which
    the timer fires every period, each answer takes a millisecond and
    no command has run longer than its timeout. *)
Theorem overlap_grows_with_timeout (n : nat) :
  exists ts,
    Timed.run poll_period (held_ticks (req_held n) n) Timed.init = Some ts
    /\ reachable (Timed.base ts)
    /\ active (Timed.base ts) = true
    /\ executing (Timed.base ts) = n
    /\ Timed.on_time (Timed.clock ts) (runs (Timed.base ts)) (Timed.since ts) = true.
Proof.
  exists (held_state (req_held n) n).
  pose proof (held_ticks_run n n (le_n n)) as H.
  split; [exact H|]. split; [|split; [reflexivity|split]].
  - apply (timed_run_reachable poll_period _ Timed.init _ reach_init H).
  - apply executing_held.
  - unfold held_state. cbn [Timed.clock Timed.base Timed.since runs].
    apply on_time_held. destruct n; unfold handed_at, poll_period; lia.
Qed.

End PollLoopMore.

(** ** Forwarding and the callbacks after shutdown *)

Section Forwarding.

(** X26: [handleEchoCommand] sends exactly one request, the forwarding
    POST of the translated command, whose command begins with the
    sigil; when it throws, what it throws is a plain [Error] (never the
    axios error itself) with a non-empty message. *)
Theorem handleEchoCommand_forwards_once
    (env : Env) (command authToken apiUrl : string) (s : St) :
  let p := parseCliCommand command in
  let post := Http apiUrl authToken (PostEchoCommand (dashboardCommand p) (args p)) in
  snd (handleEchoCommand env command authToken apiUrl s) = after env post s
  /\ Js.startsWith (dashboardCommand p) ":" = true
  /\ (forall err,
        fst (handleEchoCommand env command authToken apiUrl s) = inr err ->
        isAxiosError err = false /\ message err <> "").
Proof.
  cbv zeta. split; [|split; [apply dashboardCommand_sigil|]];
    unfold handleEchoCommand, try_catch, bind, ret, throw, axios, after;
    cbn [fst snd this world];
    destruct (http env (trace (world s)) _) as [d|e]; cbn [fst snd].
  - destruct (Data.success d); reflexivity.
  - destruct (isAxiosError e && Js.truthy (response_error e)); reflexivity.
  - destruct (Data.success d); cbn [fst]; intros err H; inversion H.
    split; [reflexivity|discriminate].
  - destruct (isAxiosError e && Js.truthy (response_error e)) eqn:E;
      cbn [fst]; intros err H; inversion H; (split; [reflexivity|]);
      cbn [message]; [|discriminate].
    apply andb_prop in E as [_ E].
    destruct (response_error e) as [m|]; [|discriminate].
    cbn in E |- *. destruct (m =? "") eqn:Em; [discriminate|].
    apply String.eqb_neq. exact Em.
Qed.

Lemma handleEchoCommand_forwards_once_witness :
  isAxiosError (Error "API request failed: quota exceeded") = false
  /\ message (Error "API request failed: quota exceeded") <> "".
Proof.
  exact (proj2 (proj2 (handleEchoCommand_forwards_once env_quota ":version" "token"
                         "https://app.qirvo.ai" st_created))
           (Error "API request failed: quota exceeded") eq_refl).
Defined.

(** X25: once [stop()] has returned, the poll callback and the
    heartbeat callback do nothing when a timer still fires them: no
    request is sent and the state does not change. *)
Theorem callbacks_after_stop_do_nothing (env env' : Env) (s : St) :
  let s' := snd (stop env s) in
  poll_tick env' s' = (inl tt, s')
  /\ heartbeat_tick env' s' = (inl tt, s').
Proof.
  cbv zeta. rewrite stop_run. cbv zeta. cbn [snd].
  unfold poll_tick, heartbeat_tick, bind, get_this, ret, after.
  cbn [this isActive set_heartbeatInterval set_pollInterval set_isActive negb].
  split; reflexivity.
Qed.

End Forwarding.
